(** * Buffon's needle: the Monte Carlo core of [buffon_montecarlo.py]

    A shallow embedding of the sampler [drop_one_needle], the estimator
    [estimate_pi], the driver [run_simulation] with its per-frame callback
    [update], and the prompt handling of the [__main__] block.

    Python floats are idealised as the real numbers of the Standard Library
    (no rounding, no overflow, no NaN); the one non-real float the program
    builds itself, [float("inf")], is a constructor of its own.  Python
    integers are [Z].  Exceptions are values of [exn], and a computation that
    may raise returns a [result].  The pseudorandom generator is an explicit
    state: the sequence of values its [random()] method is going to return,
    together with the number of values already consumed.

    What is not code of the program is a parameter: the plotting library
    ([Animation]: which callbacks it calls and how it ends) and the two
    builtins of the prompt ([Builtins]). *)

From Stdlib Require Import Reals Lra Lia ZArith List String Ascii Bool Sorted.
Import ListNotations.

Open Scope R_scope.

(** ** Exceptions and results *)

Inductive exn : Type :=
| ValueError (msg : string)
| ZeroDivisionError
| EOFError.

Inductive result (A : Type) : Type :=
| Ok (a : A)
| Raise (e : exn).

Arguments Ok {A} a.
Arguments Raise {A} e.

(** ** Floats *)

(** A float as the program can hold one: a finite value or the positive
    infinity built by [float("inf")]. *)
Inductive pyfloat : Type :=
| Finite (r : R)
| Inf.

(** [a >= b] on floats, as a boolean. *)
Definition Rgeb (a b : R) : bool :=
  if Rge_dec a b then true else false.

(** [a > b] on floats, as a boolean. *)
Definition Rgtb (a b : R) : bool :=
  if Rgt_dec a b then true else false.

(** [y % t] on floats: the remainder takes the sign of the divisor,
    [y - t * floor (y / t)], and a zero divisor raises. *)
Definition py_mod (y t : R) : result R :=
  if Req_dec_T t 0 then Raise ZeroDivisionError
  else Ok (y - t * IZR (Int_part (y / t))).

(** [a / b] on floats: a zero divisor raises. *)
Definition py_div (a b : R) : result R :=
  if Req_dec_T b 0 then Raise ZeroDivisionError
  else Ok (a / b).

(** ** The generator *)

(** [random.Random]: [draws n] is the [n]-th value of [random()], a float
    of the half-open unit interval; [pos] counts the values consumed. *)
Record Rng : Type := mkRng {
  draws : nat -> R;
  pos : nat
}.

Definition unit_draws (d : nat -> R) : Prop :=
  forall n, 0 <= d n < 1.

(** [rng.random()] *)
Definition random (g : Rng) : R * Rng :=
  (draws g (pos g), mkRng (draws g) (S (pos g))).

(** [rng.uniform(a, b)], which is [a + (b - a) * self.random()]. *)
Definition uniform (a b : R) (g : Rng) : R * Rng :=
  let '(u, g') := random g in (a + (b - a) * u, g').

(** ** The sampler *)

Record Needle : Type := mkNeedle {
  x : R;
  y : R;
  theta : R;
  crosses : bool
}.

(** Lines 40 to 42 of the sampler: the distance from the center to the
    nearest line and the comparison that sets the flag. *)
Definition crossing (L t y theta : R) : result bool :=
  match py_mod y t with
  | Raise e => Raise e
  | Ok off =>
      let d_to_line := Rmin off (t - off) in
      Ok (Rgeb ((L / 2) * sin theta) d_to_line)
  end.

(** [drop_one_needle(L, t, xlim, ylim, rng)].  The generator is a mutable
    object, so its state after the call is returned also when the call
    raises. *)
Definition drop_one_needle (L t : R) (xlim ylim : R * R) (rng : Rng)
  : result Needle * Rng :=
  let '(x, rng1) := uniform (fst xlim + L / 2) (snd xlim - L / 2) rng in
  let '(y, rng2) := uniform (fst ylim + t / 2) (snd ylim - t / 2) rng1 in
  let '(theta, rng3) := uniform 0 PI rng2 in
  match crossing L t y theta with
  | Raise e => (Raise e, rng3)
  | Ok c => (Ok (mkNeedle x y theta c), rng3)
  end.

(** ** The estimator *)

(** [estimate_pi(crosses, total, L, t)] *)
Definition estimate_pi (crosses total : Z) (L t : R) : result pyfloat :=
  if (crosses =? 0)%Z then Ok Inf
  else
    match py_div (2 * L * IZR total) (IZR crosses * t) with
    | Raise e => Raise e
    | Ok q => Ok (Finite q)
    end.

(** ** The display collaborator *)

(** The simulation state, [state = {"i": 0, "crosses": 0}]. *)
Record SimState : Type := mkState {
  st_i : Z;
  st_crosses : Z
}.

(** What a run does that can be observed, in the order it happens: every
    value the state dictionary takes, and every call that reaches the
    estimator or the plotting library. *)
Inductive Event : Type :=
| EvFigure (lines : list R)
| EvState (s : SimState)
| EvAnimation (frames interval : Z)
| EvClear
| EvNeedle (nd : Needle) (x0 x1 y0 y1 : R)
| EvEstimate (c n : Z) (L t : R)
| EvText (pi_hat : pyfloat) (n c : Z).

(** [range(a, b)] *)
Definition py_range (a b : Z) : list Z :=
  map (fun k => (a + Z.of_nat k)%Z) (seq 0 (Z.to_nat (b - a))).

(** [np.ceil] followed by [int] *)
Definition ceil (r : R) : Z := (- Int_part (- r))%Z.

(** [make_base_figure(xlim, ylim, t, title)]: the heights of the grid lines
    it draws.  Both quotients are computed before the loop starts, and they
    raise for a zero spacing. *)
Definition make_base_figure (xlim ylim : R * R) (t : R) : result (list R) :=
  match py_div (fst ylim) t with
  | Raise e => Raise e
  | Ok lo =>
      match py_div (snd ylim) t with
      | Raise e => Raise e
      | Ok hi =>
          Ok (map (fun k => IZR k * t)
                  (py_range (Int_part lo - 1) (ceil hi + 2)))
      end
  end.

(** [draw_needle(ax, nd, L)]: the segment that is plotted. *)
Definition draw_needle (nd : Needle) (L : R) : Event :=
  let dx := (L / 2) * cos (theta nd) in
  let dy := (L / 2) * sin (theta nd) in
  EvNeedle nd (x nd - dx) (x nd + dx) (y nd - dy) (y nd + dy).

(** ** The driver *)

(** What the closure [update] reads and writes: the state dictionary, the
    generator, and the log of what happened so far. *)
Record World : Type := mkWorld {
  w_state : SimState;
  w_rng : Rng;
  w_log : list Event
}.

(** [update(_)], the callback of one frame.  The world is returned also
    when the callback raises: the assignments made before the exception
    stay. *)
Definition update (L t : R) (xlim ylim : R * R) (w : World)
  : result unit * World :=
  let s1 := mkState (st_i (w_state w) + 1) (st_crosses (w_state w)) in
  let log1 := w_log w ++ [EvState s1] in
  let '(r, rng') := drop_one_needle L t xlim ylim (w_rng w) in
  match r with
  | Raise e => (Raise e, mkWorld s1 rng' log1)
  | Ok nd =>
      let s2 :=
        if crosses nd then mkState (st_i s1) (st_crosses s1 + 1) else s1 in
      let log2 := if crosses nd then log1 ++ [EvState s2] else log1 in
      let log3 :=
        log2 ++ [draw_needle nd L;
                 EvEstimate (st_crosses s2) (st_i s2) L t] in
      match estimate_pi (st_crosses s2) (st_i s2) L t with
      | Raise e => (Raise e, mkWorld s2 rng' log3)
      | Ok pi_hat =>
          (Ok tt,
           mkWorld s2 rng'
                   (log3 ++ [EvText pi_hat (st_i s2) (st_crosses s2)]))
      end
  end.

(** [init()]: both overlays are cleared. *)
Definition init (w : World) : World :=
  mkWorld (w_state w) (w_rng w) (w_log w ++ [EvClear]).

(** The two callbacks handed to the plotting library. *)
Inductive Callback : Type :=
| CallInit
| CallUpdate.

(** What [animation.FuncAnimation(...)] followed by [plt.show()] does with
    the callbacks: the calls it makes, in order, and how it ends (it may end
    with an exception of its own, also before the first call).  How many
    frames are fired, and whether a frame count is accepted at all, is the
    library's business and not the program's. *)
Record Playback : Type := mkPlayback {
  pb_calls : list Callback;
  pb_end : result unit
}.

(** The plotting library, as far as the driver depends on it: the playback
    for the arguments [frames] and [interval]. *)
Definition Animation : Type := Z -> Z -> Playback.

(** A library that calls [init] once and then [update] once per element of
    [range(frames)], and returns ([repeat=False]). *)
Definition plain_animation : Animation :=
  fun frames _ =>
    mkPlayback (CallInit :: repeat CallUpdate (Z.to_nat frames)) (Ok tt).

(** The number of [update] calls of a playback. *)
Fixpoint updates_in (calls : list Callback) : nat :=
  match calls with
  | [] => O
  | CallInit :: calls' => updates_in calls'
  | CallUpdate :: calls' => S (updates_in calls')
  end.

(** The calls of a playback, run in order and stopping at the first one
    that raises. *)
Fixpoint play (calls : list Callback) (L t : R) (xlim ylim : R * R)
         (w : World) : result unit * World :=
  match calls with
  | [] => (Ok tt, w)
  | CallInit :: calls' => play calls' L t xlim ylim (init w)
  | CallUpdate :: calls' =>
      match update L t xlim ylim w with
      | (Raise e, w') => (Raise e, w')
      | (Ok _, w') => play calls' L t xlim ylim w'
      end
  end.

(** The outcome of a run; [run_world] is [None] when the run ended before
    the state dictionary was created, hence before any value was drawn. *)
Record Run : Type := mkRun {
  run_result : result unit;
  run_world : option World
}.

Definition run_log (r : Run) : list Event :=
  match run_world r with
  | Some w => w_log w
  | None => []
  end.

Definition run_draws (r : Run) : nat :=
  match run_world r with
  | Some w => pos (w_rng w)
  | None => O
  end.

Definition run_state (r : Run) : option SimState :=
  match run_world r with
  | Some w => Some (w_state w)
  | None => None
  end.

(** [run_simulation(N, speed_ms, L, t)]; [lib] is the plotting library and
    [d] the sequence that the fresh [random.Random()] of this run is going
    to produce.  The run ends as the playback ends, unless a callback
    raised. *)
Definition run_simulation (lib : Animation) (N speed_ms : Z) (L t : R)
           (d : nat -> R) : Run :=
  if Rgtb L t then mkRun (Raise (ValueError "Requires L ≤ t")) None
  else
    let rng := mkRng d O in
    let xlim := (-3, 3) in
    let ylim := (-3, 3) in
    match make_base_figure xlim ylim t with
    | Raise e => mkRun (Raise e) None
    | Ok lines =>
        let state := mkState 0 0 in
        let interval := Z.max 1 speed_ms in
        let w0 :=
          mkWorld state rng
                  [EvFigure lines; EvState state; EvAnimation N interval] in
        let pb := lib N interval in
        let '(r, w) := play (pb_calls pb) L t xlim ylim w0 in
        match r with
        | Raise e => mkRun (Raise e) (Some w)
        | Ok _ => mkRun (pb_end pb) (Some w)
        end
    end.

(** ** The prompt *)

(** The characters that [str.strip()] removes, among the ASCII ones. *)
Definition is_space (c : ascii) : bool :=
  let n := nat_of_ascii c in
  ((9 <=? n) && (n <=? 13) || (28 <=? n) && (n <=? 32))%nat.

Fixpoint lstrip (s : string) : string :=
  match s with
  | EmptyString => EmptyString
  | String c s' => if is_space c then lstrip s' else s
  end.

Fixpoint rstrip (s : string) : string :=
  match s with
  | EmptyString => EmptyString
  | String c s' =>
      match rstrip s' with
      | EmptyString => if is_space c then EmptyString else String c EmptyString
      | r => String c r
      end
  end.

(** [s.strip()] *)
Definition strip (s : string) : string := rstrip (lstrip s).

Definition digit_val (c : ascii) : option Z :=
  let n := nat_of_ascii c in
  if ((48 <=? n) && (n <=? 57))%nat then Some (Z.of_nat (n - 48)) else None.

(** The rest of a decimal literal once a digit has been read: digits, each
    possibly preceded by one underscore. *)
Fixpoint int_digits (acc : Z) (s : string) : option Z :=
  match s with
  | EmptyString => Some acc
  | String c s' =>
      match digit_val c with
      | Some v => int_digits (acc * 10 + v) s'
      | None =>
          if Ascii.eqb c "_" then
            match s' with
            | EmptyString => None
            | String c' s'' =>
                match digit_val c' with
                | Some v => int_digits (acc * 10 + v) s''
                | None => None
                end
            end
          else None
      end
  end.

Definition int_magnitude (s : string) : option Z :=
  match s with
  | EmptyString => None
  | String c s' =>
      match digit_val c with
      | Some v => int_digits v s'
      | None => None
      end
  end.

(** [int(s)] on ASCII text of up to 4300 digits: surrounding whitespace, an
    optional sign, then a decimal literal; anything else raises
    [ValueError] (the message is kept without the quoted literal).  Text
    with other characters or more digits is outside of what this function
    describes. *)
Definition py_int (s : string) : result Z :=
  let body := strip s in
  let parsed :=
    match body with
    | String "+" r => int_magnitude r
    | String "-" r => option_map Z.opp (int_magnitude r)
    | _ => int_magnitude body
    end in
  match parsed with
  | Some n => Ok n
  | None => Raise (ValueError "invalid literal for int() with base 10")
  end.

(** [input(prompt)]: the line typed at the prompt, or [EOFError] when the
    standard input is exhausted ([None]). *)
Definition input (stdin : option string) : result string :=
  match stdin with
  | Some line => Ok line
  | None => Raise EOFError
  end.

Definition nl : string := String (ascii_of_nat 10) EmptyString.

(** [print(s)] *)
Definition print (s : string) : string := (s ++ nl)%string.

Definition prompt : string := "How many needles should be dropped? ".

Definition fallback_message : string :=
  print ("Invalid input. Using default N=300." ++ nl).

(** The two builtins the prompt relies on, [str.strip] and [int].  The
    program is modelled for whatever they do. *)
Record Builtins : Type := mkBuiltins {
  str_strip : string -> string;
  int_of_str : string -> result Z
}.

(** The builtins on short ASCII text. *)
Definition ascii_builtins : Builtins := mkBuiltins strip py_int.

(** The body of the [try]: [int(input(prompt).strip())]. *)
Definition read_count (py : Builtins) (stdin : option string) : result Z :=
  match input stdin with
  | Raise e => Raise e
  | Ok line => int_of_str py (str_strip py line)
  end.

Definition banner : list string :=
  [print "Welcome to Buffon's Needle Monte Carlo Simulator!";
   print ("Each run will be random and yield a different π estimate." ++ nl);
   prompt].

(** The [__main__] block: what is written to the standard output, and the
    run.  The [except Exception] clause catches whatever [input] or [int]
    raises. *)
Definition main (py : Builtins) (lib : Animation) (stdin : option string)
           (d : nat -> R) : list string * Run :=
  match read_count py stdin with
  | Ok N => (banner, run_simulation lib N 10 1 1 d)
  | Raise _ =>
      (banner ++ [fallback_message], run_simulation lib 300 10 1 1 d)
  end.

(** ** The states a run goes through *)

(** The values the state dictionary took, oldest first. *)
Fixpoint states_of (log : list Event) : list SimState :=
  match log with
  | [] => []
  | EvState s :: log' => s :: states_of log'
  | _ :: log' => states_of log'
  end.

(** The estimator calls of a log. *)
Fixpoint estimates_of (log : list Event) : list (Z * Z) :=
  match log with
  | [] => []
  | EvEstimate c n _ _ :: log' => (c, n) :: estimates_of log'
  | _ :: log' => estimates_of log'
  end.

Definition counters_ok (s : SimState) : Prop :=
  (0 <= st_crosses s <= st_i s)%Z.

Definition state_le (s s' : SimState) : Prop :=
  (st_i s <= st_i s')%Z /\ (st_crosses s <= st_crosses s')%Z.

(** What holds of a world between two frames: the counters are in order,
    every state of the log is, the logged states never decrease and none
    exceeds the current one, and the first of them is the fresh state. *)
Definition log_inv (w : World) : Prop :=
  let sts := states_of (w_log w) in
  counters_ok (w_state w)
  /\ Forall counters_ok sts
  /\ StronglySorted state_le sts
  /\ Forall (fun a => state_le a (w_state w)) sts
  /\ hd_error sts = Some (mkState 0 0).

(** The center [y] lies on a grid line of spacing [t]. *)
Definition on_line (y t : R) : Prop :=
  exists k : Z, y = IZR k * t.

(** ** What the display received *)

(** The animations created, as [(frames, interval)]. *)
Fixpoint animations_of (log : list Event) : list (Z * Z) :=
  match log with
  | [] => []
  | EvAnimation frames interval :: log' =>
      (frames, interval) :: animations_of log'
  | _ :: log' => animations_of log'
  end.

(** The needles handed to [draw_needle], oldest first. *)
Fixpoint needles_of (log : list Event) : list Needle :=
  match log with
  | [] => []
  | EvNeedle nd _ _ _ _ :: log' => nd :: needles_of log'
  | _ :: log' => needles_of log'
  end.

(** The overlays written by [update]: estimate, needle count, crossing
    count. *)
Fixpoint texts_of (log : list Event) : list (pyfloat * Z * Z) :=
  match log with
  | [] => []
  | EvText p n c :: log' => (p, n, c) :: texts_of log'
  | _ :: log' => texts_of log'
  end.

(** The number of needles drawn in red. *)
Definition hits (nds : list Needle) : nat :=
  List.length (filter crosses nds).

(** The state after a frame that started in [s] and sampled [nd]. *)
Definition state_after (s : SimState) (nd : Needle) : SimState :=
  mkState (st_i s + 1) (st_crosses s + (if crosses nd then 1 else 0)).

(** The events a completed frame appends to the log. *)
Definition frame_events (L t : R) (s : SimState) (nd : Needle) (p : pyfloat)
  : list Event :=
  let s' := state_after s nd in
  EvState (mkState (st_i s + 1) (st_crosses s))
  :: (if crosses nd then [EvState s'] else [])
  ++ [draw_needle nd L;
      EvEstimate (st_crosses s') (st_i s') L t;
      EvText p (st_i s') (st_crosses s')].

(** An overlay agrees with the estimator and shows counters in order. *)
Definition text_ok (L t : R) (x : pyfloat * Z * Z) : Prop :=
  let '(p, n, c) := x in
  (1 <= n)%Z /\ (0 <= c <= n)%Z
  /\ estimate_pi c n L t = Ok p
  /\ (p = Inf <-> c = 0%Z).

(** What holds of the log between two frames: the counters are the
    numbers of needles drawn and of needles drawn in red, every overlay is
    in order, and the overlays number the needles 1, 2, 3, ... *)
Definition frames_inv (L t : R) (w : World) : Prop :=
  let nds := needles_of (w_log w) in
  st_i (w_state w) = Z.of_nat (List.length nds)
  /\ st_crosses (w_state w) = Z.of_nat (hits nds)
  /\ Forall (text_ok L t) (texts_of (w_log w))
  /\ map (fun x => snd (fst x)) (texts_of (w_log w))
     = map Z.of_nat (seq 1 (List.length nds)).

(** The flag of a needle says whether a grid line of spacing [t] lies
    between the heights of the two endpoints [draw_needle] plots, whichever
    of the two is the lower one. *)
Definition coloured_right (L t : R) (nd : Needle) : Prop :=
  let y0 := y nd - (L / 2) * sin (theta nd) in
  let y1 := y nd + (L / 2) * sin (theta nd) in
  crosses nd = true <->
  exists k : Z, Rmin y0 y1 <= IZR k * t <= Rmax y0 y1.

(** Both endpoints of the plotted segment lie in the rectangle. *)
Definition inside (L : R) (xlim ylim : R * R) (nd : Needle) : Prop :=
  fst xlim <= x nd - (L / 2) * cos (theta nd) <= snd xlim
  /\ fst xlim <= x nd + (L / 2) * cos (theta nd) <= snd xlim
  /\ fst ylim <= y nd - (L / 2) * sin (theta nd) <= snd ylim
  /\ fst ylim <= y nd + (L / 2) * sin (theta nd) <= snd ylim.

(** ** Sample generator outputs *)

(** A generator stuck at the middle of the unit interval. *)
Definition d_half : nat -> R := fun _ => 1 / 2.

(** Draws that put the center on the line [y = 0] of the default window
    and give the orientation [0]. *)
Definition d_flat_on_line : nat -> R :=
  fun n => match n with
           | 1%nat => 1 / 2
           | _ => 0
           end.

(** Draws that put the center at [y = 5/4] in the default window and give
    the orientation [PI / 2]. *)
Definition d_upright_off_line : nat -> R :=
  fun n => match n with
           | 1%nat => 3 / 4
           | 2%nat => 1 / 2
           | _ => 0
           end.

(** * Properties *)

(** ** Arithmetic of the model *)

Lemma Rgeb_true_iff (a b : R) : Rgeb a b = true <-> a >= b.
Proof.
  unfold Rgeb. destruct (Rge_dec a b) as [H | H]; split; intro G.
  - exact H.
  - reflexivity.
  - discriminate G.
  - contradiction.
Qed.

Lemma Rgtb_true_iff (a b : R) : Rgtb a b = true <-> a > b.
Proof.
  unfold Rgtb. destruct (Rgt_dec a b) as [H | H]; split; intro G.
  - exact H.
  - reflexivity.
  - discriminate G.
  - contradiction.
Qed.

Lemma Rgtb_false_iff (a b : R) : Rgtb a b = false <-> a <= b.
Proof.
  unfold Rgtb. destruct (Rgt_dec a b) as [H | H]; split; intro G.
  - discriminate G.
  - lra.
  - lra.
  - reflexivity.
Qed.

Lemma py_div_ok (a b : R) : b <> 0 -> py_div a b = Ok (a / b).
Proof.
  intro Hb. unfold py_div. destruct (Req_dec_T b 0) as [E | _].
  - contradiction.
  - reflexivity.
Qed.

Lemma py_div_zero (a : R) : py_div a 0 = Raise ZeroDivisionError.
Proof.
  unfold py_div. destruct (Req_dec_T 0 0) as [_ | N].
  - reflexivity.
  - exfalso. apply N. reflexivity.
Qed.

Lemma py_mod_ok (y t : R) :
  t <> 0 -> py_mod y t = Ok (y - t * IZR (Int_part (y / t))).
Proof.
  intro Ht. unfold py_mod. destruct (Req_dec_T t 0) as [E | _].
  - contradiction.
  - reflexivity.
Qed.

Lemma py_mod_zero (y : R) : py_mod y 0 = Raise ZeroDivisionError.
Proof.
  unfold py_mod. destruct (Req_dec_T 0 0) as [_ | N].
  - reflexivity.
  - exfalso. apply N. reflexivity.
Qed.

(** For a positive divisor the remainder is the one of the floored
    division: it is the only [off] of [[0, t)] that differs from [y] by a
    multiple of [t]. *)
Lemma py_mod_unique (y t off : R) (k : Z) :
  0 < t -> 0 <= off < t -> y = IZR k * t + off -> py_mod y t = Ok off.
Proof.
  intros Ht [Hlo Hhi] Hy.
  rewrite py_mod_ok by lra.
  assert (Hk : k = Int_part (y / t)).
  { apply Int_part_spec.
    assert (Hinv : 0 < / t) by (apply Rinv_0_lt_compat; exact Ht).
    assert (Hq : y / t = IZR k + off / t) by (subst y; field; lra).
    rewrite Hq. unfold Rdiv.
    assert (Hone : t * / t = 1) by (field; lra).
    split; nra. }
  rewrite <- Hk. f_equal. lra.
Qed.

Lemma py_mod_range (y t : R) :
  0 < t ->
  exists (k : Z) (off : R),
    py_mod y t = Ok off /\ 0 <= off < t /\ y = IZR k * t + off.
Proof.
  intro Ht.
  exists (Int_part (y / t)), (y - t * IZR (Int_part (y / t))).
  rewrite py_mod_ok by lra.
  destruct (base_Int_part (y / t)) as [Hle Hgt].
  assert (Hy : y / t * t = y) by (field; lra).
  repeat split; try lra; nra.
Qed.

(** ** The sampler *)

Lemma drop_one_needle_unfold (L t : R) (xlim ylim : R * R) (rng : Rng) :
  drop_one_needle L t xlim ylim rng =
  let d := draws rng in
  let p := pos rng in
  let a := fst xlim + L / 2 in
  let b := fst ylim + t / 2 in
  let x := a + (snd xlim - L / 2 - a) * d p in
  let y := b + (snd ylim - t / 2 - b) * d (S p) in
  let theta := 0 + (PI - 0) * d (S (S p)) in
  match crossing L t y theta with
  | Raise e => (Raise e, mkRng d (S (S (S p))))
  | Ok c => (Ok (mkNeedle x y theta c), mkRng d (S (S (S p))))
  end.
Proof. reflexivity. Qed.

Lemma crossing_ok (L t y theta : R) :
  t <> 0 -> exists b, crossing L t y theta = Ok b.
Proof.
  intro Ht. unfold crossing. rewrite py_mod_ok by exact Ht.
  eexists. reflexivity.
Qed.

Lemma crossing_zero_spacing (L y theta : R) :
  crossing L 0 y theta = Raise ZeroDivisionError.
Proof. unfold crossing. rewrite py_mod_zero. reflexivity. Qed.

(** With a spacing other than zero the sampler returns a needle, and the
    flag of that needle is the crossing rule at its own center and
    orientation. *)
Lemma drop_one_needle_ok (L t : R) (xlim ylim : R * R) (rng : Rng) :
  t <> 0 ->
  exists nd,
    drop_one_needle L t xlim ylim rng
    = (Ok nd, mkRng (draws rng) (S (S (S (pos rng)))))
    /\ crossing L t (y nd) (theta nd) = Ok (crosses nd)
    /\ x nd = fst xlim + L / 2
              + (snd xlim - L / 2 - (fst xlim + L / 2)) * draws rng (pos rng)
    /\ y nd = fst ylim + t / 2
              + (snd ylim - t / 2 - (fst ylim + t / 2))
                * draws rng (S (pos rng))
    /\ theta nd = 0 + (PI - 0) * draws rng (S (S (pos rng))).
Proof.
  intro Ht. rewrite drop_one_needle_unfold. cbv zeta.
  match goal with
  | |- context [crossing L t ?yy ?th] =>
      destruct (crossing_ok L t yy th Ht) as [b Hb]; rewrite Hb
  end.
  eexists. split; [reflexivity |]. cbn. repeat split. exact Hb.
Qed.

(** C1. For 0 < L <= t and every center y and orientation theta, the
    crossing flag is true exactly when (L/2) sin(theta) >= min(off, t - off),
    where off is y mod t, the one offset of [0, t) that differs from y by a
    whole number of spacings; equality counts as a crossing.  The needle the
    sampler returns carries the flag of this rule at its own center and
    orientation. *)
Theorem crossing_flag_rule (L t : R) (xlim ylim : R * R) (rng : Rng) :
  0 < L <= t ->
  (forall (y theta off : R) (k : Z),
      0 <= off < t -> y = IZR k * t + off ->
      exists b,
        crossing L t y theta = Ok b
        /\ (b = true <-> (L / 2) * sin theta >= Rmin off (t - off)))
  /\ exists nd,
      fst (drop_one_needle L t xlim ylim rng) = Ok nd
      /\ crossing L t (y nd) (theta nd) = Ok (crosses nd).
Proof.
  intros [HL HLt]. split.
  - intros y0 th off k Hoff Hy.
    unfold crossing. rewrite (py_mod_unique y0 t off k) by (lra || assumption).
    eexists. split; [reflexivity |]. apply Rgeb_true_iff.
  - destruct (drop_one_needle_ok L t xlim ylim rng) as (nd & E & Hc & _).
    + lra.
    + exists nd. rewrite E. split; [reflexivity | exact Hc].
Qed.

Lemma crossing_flag_rule_witness :
  0 < 1 <= 1 /\
  exists b,
    crossing 1 1 (5 / 4) (PI / 2) = Ok b
    /\ (b = true <-> (1 / 2) * sin (PI / 2) >= Rmin (1 / 4) (1 - 1 / 4)).
Proof.
  assert (H : 0 < 1 <= 1) by lra.
  split; [exact H |].
  destruct (crossing_flag_rule 1 1 (-3, 3) (-3, 3) (mkRng d_half 0) H)
    as [rule _].
  apply (rule (5 / 4) (PI / 2) (1 / 4) 1%Z); lra.
Defined.

(** C6, as the code has it. For theta = 0 and 0 < L <= t the flag is true
    exactly when the center lies on a grid line (y mod t = 0), because the
    comparison is >= and both sides are then zero; off the lines a flat
    needle never crosses. *)
Theorem flat_needle_crosses_iff_on_line (L t y : R) :
  0 < L <= t ->
  exists b, crossing L t y 0 = Ok b /\ (b = true <-> on_line y t).
Proof.
  intros [HL HLt].
  assert (Ht : 0 < t) by lra.
  destruct (py_mod_range y t Ht) as (k & off & Hmod & Hoff & Hy).
  unfold crossing. rewrite Hmod. eexists. split; [reflexivity |].
  rewrite Rgeb_true_iff, sin_0, Rmult_0_r.
  split.
  - intro Hge. exists k.
    assert (Hmin : Rmin off (t - off) = off \/ Rmin off (t - off) = t - off).
    { unfold Rmin. destruct (Rle_dec off (t - off)); auto. }
    destruct Hmin as [E | E]; rewrite E in Hge; lra.
  - intros [k' Hk'].
    assert (E : py_mod y t = Ok 0).
    { apply (py_mod_unique y t 0 k'); lra. }
    rewrite Hmod in E. injection E as E. subst off.
    rewrite Rmin_left by lra. lra.
Qed.

Lemma flat_needle_crosses_iff_on_line_witness :
  0 < 1 <= 1 /\
  exists b, crossing 1 1 (1 / 2) 0 = Ok b /\ (b = true <-> on_line (1 / 2) 1).
Proof.
  assert (H : 0 < 1 <= 1) by lra.
  split; [exact H |].
  exact (flat_needle_crosses_iff_on_line 1 1 (1 / 2) H).
Defined.

(** C6, as stated, fails: with L = t = 1 the draws [d_flat_on_line] give a
    needle at y = 0 with theta = 0, and its flag is true. *)
Lemma flat_needle_on_line_crosses :
  crossing 1 1 0 0 = Ok true
  /\ exists nd,
      fst (drop_one_needle 1 1 (-3, 3) (-3, 3) (mkRng d_flat_on_line 0))
      = Ok nd
      /\ y nd = 0 /\ theta nd = 0 /\ crosses nd = true.
Proof.
  assert (Hrule : crossing 1 1 0 0 = Ok true).
  { unfold crossing. rewrite (py_mod_unique 0 1 0 0%Z) by lra.
    f_equal. apply Rgeb_true_iff.
    rewrite sin_0, Rmin_left by lra. lra. }
  split; [exact Hrule |].
  destruct (drop_one_needle_ok 1 1 (-3, 3) (-3, 3) (mkRng d_flat_on_line 0))
    as (nd & E & Hc & _ & Hy & Hth).
  - lra.
  - cbn in Hy, Hth.
    assert (Hy0 : y nd = 0) by (rewrite Hy; lra).
    assert (Hth0 : theta nd = 0) by (rewrite Hth; lra).
    exists nd. rewrite E. repeat split; try assumption.
    rewrite Hy0, Hth0, Hrule in Hc. injection Hc as Hc. symmetry. exact Hc.
Qed.

Lemma crossing_upright_full (t y : R) :
  0 < t -> crossing t t y (PI / 2) = Ok true.
Proof.
  intro Ht.
  destruct (py_mod_range y t Ht) as (k & off & Hmod & Hoff & _).
  unfold crossing. rewrite Hmod. f_equal. apply Rgeb_true_iff.
  rewrite sin_PI2, Rmult_1_r.
  unfold Rmin. destruct (Rle_dec off (t - off)); lra.
Qed.

(** C7, as the code has it. For theta = PI/2 and L = t > 0 the flag is true
    for every center: half the needle, t/2, always reaches the nearest
    line, which is never farther than t/2.  So is the flag of every needle
    the sampler returns with that orientation. *)
Theorem upright_full_needle_always_crosses (t y : R) :
  0 < t ->
  crossing t t y (PI / 2) = Ok true
  /\ forall xlim ylim rng nd,
      fst (drop_one_needle t t xlim ylim rng) = Ok nd ->
      theta nd = PI / 2 -> crosses nd = true.
Proof.
  intro Ht. split.
  - apply crossing_upright_full. exact Ht.
  - intros xlim ylim rng nd E Hth.
    destruct (drop_one_needle_ok t t xlim ylim rng) as (nd' & E' & Hc & _).
    + lra.
    + rewrite E' in E. cbn in E. injection E as E. subst nd'.
      rewrite Hth, crossing_upright_full in Hc by exact Ht.
      injection Hc as Hc. symmetry. exact Hc.
Qed.

Lemma upright_full_needle_always_crosses_witness :
  0 < 1 /\ crossing 1 1 (5 / 4) (PI / 2) = Ok true.
Proof.
  assert (H : 0 < 1) by lra.
  split; [exact H |].
  exact (proj1 (upright_full_needle_always_crosses 1 (5 / 4) H)).
Defined.

(** C7, as stated, fails: with L = t = 1 the draws [d_upright_off_line]
    give a needle at y = 5/4 with theta = PI/2; its offset y mod t is 1/4,
    not 0, and its flag is true. *)
Lemma upright_needle_off_line_crosses :
  py_mod (5 / 4) 1 = Ok (1 / 4)
  /\ ~ on_line (5 / 4) 1
  /\ exists nd,
      fst (drop_one_needle 1 1 (-3, 3) (-3, 3) (mkRng d_upright_off_line 0))
      = Ok nd
      /\ y nd = 5 / 4 /\ theta nd = PI / 2 /\ crosses nd = true.
Proof.
  assert (Hmod : py_mod (5 / 4) 1 = Ok (1 / 4)).
  { apply (py_mod_unique (5 / 4) 1 (1 / 4) 1%Z); lra. }
  split; [exact Hmod |]. split.
  - intros [k Hk].
    assert (E : py_mod (5 / 4) 1 = Ok 0).
    { apply (py_mod_unique (5 / 4) 1 0 k); lra. }
    rewrite Hmod in E. injection E as E. lra.
  - destruct (drop_one_needle_ok 1 1 (-3, 3) (-3, 3)
                                 (mkRng d_upright_off_line 0))
      as (nd & E & Hc & _ & Hy & Hth).
    + lra.
    + cbn in Hy, Hth.
      assert (Hy0 : y nd = 5 / 4) by (rewrite Hy; lra).
      assert (Hth0 : theta nd = PI / 2) by (rewrite Hth; lra).
      exists nd. rewrite E. repeat split; try assumption.
      rewrite Hy0, Hth0 in Hc.
      rewrite (crossing_upright_full 1 (5 / 4)) in Hc by lra.
      injection Hc as Hc. symmetry. exact Hc.
Qed.

Lemma uniform_between (a b u : R) :
  a <= b -> 0 <= u < 1 -> a <= a + (b - a) * u <= b.
Proof. intros Hab [Hlo Hhi]. split; nra. Qed.

(** C8. For 0 < L <= t and a region at least L wide and t high, a generator
    whose random() stays in [0, 1) makes the sampler return a needle whose
    center is in the padded rectangle and whose two endpoints
    (x -/+ (L/2) cos theta, y -/+ (L/2) sin theta) are inside the region. *)
Theorem needle_inside_region
  (L t xmin xmax ymin ymax : R) (rng : Rng) :
  0 < L <= t ->
  xmax - xmin >= L ->
  ymax - ymin >= t ->
  unit_draws (draws rng) ->
  exists nd,
    fst (drop_one_needle L t (xmin, xmax) (ymin, ymax) rng) = Ok nd
    /\ xmin + L / 2 <= x nd <= xmax - L / 2
    /\ ymin + t / 2 <= y nd <= ymax - t / 2
    /\ xmin <= x nd - (L / 2) * cos (theta nd) <= xmax
    /\ xmin <= x nd + (L / 2) * cos (theta nd) <= xmax
    /\ ymin <= y nd - (L / 2) * sin (theta nd) <= ymax
    /\ ymin <= y nd + (L / 2) * sin (theta nd) <= ymax.
Proof.
  intros [HL HLt] Hw Hh Hd.
  destruct (drop_one_needle_ok L t (xmin, xmax) (ymin, ymax) rng)
    as (nd & E & _ & Hx & Hy & _).
  { lra. }
  cbn [fst snd] in Hx, Hy.
  exists nd. rewrite E. split; [reflexivity |].
  assert (Bx : xmin + L / 2 <= x nd <= xmax - L / 2).
  { rewrite Hx. apply uniform_between; [lra | apply Hd]. }
  assert (By : ymin + t / 2 <= y nd <= ymax - t / 2).
  { rewrite Hy. apply uniform_between; [lra | apply Hd]. }
  pose proof (COS_bound (theta nd)) as [Hc1 Hc2].
  pose proof (SIN_bound (theta nd)) as [Hs1 Hs2].
  assert (Hcx : - (L / 2) <= (L / 2) * cos (theta nd) <= L / 2)
    by (split; nra).
  assert (Hsy : - (t / 2) <= (L / 2) * sin (theta nd) <= t / 2)
    by (split; nra).
  repeat split; lra.
Qed.

Lemma d_half_unit : unit_draws d_half.
Proof. intro n. unfold d_half. lra. Qed.

Lemma needle_inside_region_witness :
  exists nd,
    fst (drop_one_needle 1 1 (-3, 3) (-3, 3) (mkRng d_half 0)) = Ok nd
    /\ -3 + 1 / 2 <= x nd <= 3 - 1 / 2
    /\ -3 + 1 / 2 <= y nd <= 3 - 1 / 2
    /\ -3 <= x nd - (1 / 2) * cos (theta nd) <= 3
    /\ -3 <= x nd + (1 / 2) * cos (theta nd) <= 3
    /\ -3 <= y nd - (1 / 2) * sin (theta nd) <= 3
    /\ -3 <= y nd + (1 / 2) * sin (theta nd) <= 3.
Proof.
  apply (needle_inside_region 1 1 (-3) 3 (-3) 3 (mkRng d_half 0)).
  - lra.
  - lra.
  - lra.
  - exact d_half_unit.
Defined.

(** ** The estimator *)

Lemma estimate_pi_ok (c n : Z) (L t : R) :
  t <> 0 -> exists p, estimate_pi c n L t = Ok p.
Proof.
  intro Ht. unfold estimate_pi.
  destruct (c =? 0)%Z eqn:Ec.
  - eexists. reflexivity.
  - apply Z.eqb_neq in Ec.
    rewrite py_div_ok.
    + eexists. reflexivity.
    + apply Rmult_integral_contrapositive_currified; [| exact Ht].
      apply not_0_IZR. exact Ec.
Qed.

(** C2. For crossings > 0 and t > 0 the estimator returns exactly
    (2 * L * trials) / (crossings * t). *)
Theorem estimate_pi_formula (crossings trials : Z) (L t : R) :
  (crossings > 0)%Z -> t > 0 ->
  estimate_pi crossings trials L t
  = Ok (Finite ((2 * L * IZR trials) / (IZR crossings * t))).
Proof.
  intros Hc Ht. unfold estimate_pi.
  destruct (crossings =? 0)%Z eqn:Ec.
  - apply Z.eqb_eq in Ec. lia.
  - rewrite py_div_ok; [reflexivity |].
    assert (Hpos : 0 < IZR crossings) by (apply IZR_lt; lia).
    nra.
Qed.

Lemma estimate_pi_formula_witness :
  estimate_pi 2 3 1 1 = Ok (Finite ((2 * 1 * IZR 3) / (IZR 2 * 1))).
Proof.
  apply (estimate_pi_formula 2 3 1 1).
  - lia.
  - lra.
Defined.

(** C3. With crossings = 0 the estimator returns the infinite sentinel and
    raises nothing, whatever trials, L and t are; in particular at
    trials = 0 and at t = 0, where the quotient would divide by zero. *)
Theorem estimate_pi_no_crossings (trials : Z) (L t : R) :
  estimate_pi 0 trials L t = Ok Inf
  /\ estimate_pi 0 0 L t = Ok Inf
  /\ estimate_pi 0 trials L 0 = Ok Inf.
Proof. repeat split. Qed.

(** ** The driver *)

Lemma run_simulation_rejects (lib : Animation) (N speed_ms : Z) (L t : R)
      (d : nat -> R) :
  L > t ->
  run_simulation lib N speed_ms L t d
  = mkRun (Raise (ValueError "Requires L ≤ t")) None.
Proof.
  intro H. unfold run_simulation.
  apply Rgtb_true_iff in H. rewrite H. reflexivity.
Qed.

(** C4. For L > t the driver raises the configuration error at once: the
    run has no state dictionary, no value was drawn from a generator, and
    nothing was logged, so no counter was set, no needle sampled or drawn
    and the estimator was not called. *)
Theorem run_simulation_fails_fast (lib : Animation) (N speed_ms : Z)
        (L t : R) (d : nat -> R) :
  L > t ->
  let r := run_simulation lib N speed_ms L t d in
  run_result r = Raise (ValueError "Requires L ≤ t")
  /\ run_state r = None
  /\ run_draws r = O
  /\ run_log r = []
  /\ states_of (run_log r) = []
  /\ estimates_of (run_log r) = [].
Proof.
  intros H r. subst r. rewrite run_simulation_rejects by exact H.
  repeat split.
Qed.

Lemma run_simulation_fails_fast_witness :
  2 > 1 /\
  run_result (run_simulation plain_animation 10000 15 2 1 d_half)
  = Raise (ValueError "Requires L ≤ t").
Proof.
  assert (H : 2 > 1) by lra.
  split; [exact H |].
  exact (proj1 (run_simulation_fails_fast
                  plain_animation 10000 15 2 1 d_half H)).
Defined.

(** C10, as the code has it. With L > t the sampler never raises the
    configuration error: it returns a needle when t is not zero, and when
    t = 0 its modulo raises ZeroDivisionError.  The driver, given the same
    L and t, raises the configuration error. *)
Theorem sampler_does_not_validate
  (L t : R) (xlim ylim : R * R) (rng : Rng)
  (lib : Animation) (N speed_ms : Z) (d : nat -> R) :
  L > t ->
  (forall msg,
      fst (drop_one_needle L t xlim ylim rng) <> Raise (ValueError msg))
  /\ (t <> 0 -> exists nd, fst (drop_one_needle L t xlim ylim rng) = Ok nd)
  /\ (t = 0 ->
      fst (drop_one_needle L t xlim ylim rng) = Raise ZeroDivisionError)
  /\ run_result (run_simulation lib N speed_ms L t d)
     = Raise (ValueError "Requires L ≤ t").
Proof.
  intro H.
  assert (Hnz : t <> 0 ->
                exists nd, fst (drop_one_needle L t xlim ylim rng) = Ok nd).
  { intro Ht.
    destruct (drop_one_needle_ok L t xlim ylim rng Ht) as (nd & E & _).
    exists nd. rewrite E. reflexivity. }
  assert (Hz : t = 0 ->
               fst (drop_one_needle L t xlim ylim rng)
               = Raise ZeroDivisionError).
  { intro Ht. subst t. rewrite drop_one_needle_unfold. cbv zeta.
    rewrite crossing_zero_spacing. reflexivity. }
  repeat split.
  - intros msg Hv. destruct (Req_dec_T t 0) as [Ht | Ht].
    + rewrite (Hz Ht) in Hv. discriminate Hv.
    + destruct (Hnz Ht) as [nd E]. rewrite E in Hv. discriminate Hv.
  - exact Hnz.
  - exact Hz.
  - rewrite run_simulation_rejects by exact H. reflexivity.
Qed.

Lemma sampler_does_not_validate_witness :
  2 > 1 /\
  (exists nd,
      fst (drop_one_needle 2 1 (-3, 3) (-3, 3) (mkRng d_half 0)) = Ok nd)
  /\ run_result (run_simulation plain_animation 10 15 2 1 d_half)
     = Raise (ValueError "Requires L ≤ t").
Proof.
  assert (H : 2 > 1) by lra.
  destruct (sampler_does_not_validate
              2 1 (-3, 3) (-3, 3) (mkRng d_half 0)
              plain_animation 10 15 d_half H)
    as (_ & Hnd & _ & Hrun).
  split; [exact H |]. split; [| exact Hrun].
  apply Hnd. lra.
Defined.

(** C10, as stated, fails: L = 1 and t = 0 have L > t, and the sampler
    returns no needle there but raises ZeroDivisionError. *)
Lemma sampler_zero_spacing_raises :
  1 > 0
  /\ fst (drop_one_needle 1 0 (-3, 3) (-3, 3) (mkRng d_half 0))
     = Raise ZeroDivisionError.
Proof.
  split; [lra |].
  rewrite drop_one_needle_unfold. cbv zeta.
  rewrite crossing_zero_spacing. reflexivity.
Qed.

(** ** The counters along a run *)

Lemma states_of_app (l1 l2 : list Event) :
  states_of (l1 ++ l2) = states_of l1 ++ states_of l2.
Proof.
  induction l1 as [| e l1 IH]; [reflexivity |].
  destruct e; cbn; rewrite IH; reflexivity.
Qed.

(** One frame, whether it raises or not: the trial counter goes up by
    one, the crossing counter by one when [hit] is set, and the states
    appended to the log are the one after the first assignment and, for a
    hit, the one after the second. *)
Lemma update_step (L t : R) (xlim ylim : R * R) (w : World) :
  let s := w_state w in
  let w' := snd (update L t xlim ylim w) in
  exists (hit : bool) (extra : list Event),
    w_state w'
    = mkState (st_i s + 1) (st_crosses s + (if hit then 1 else 0))
    /\ w_log w' = w_log w ++ extra
    /\ states_of extra
       = mkState (st_i s + 1) (st_crosses s)
         :: (if hit then [mkState (st_i s + 1) (st_crosses s + 1)] else [])
    /\ pos (w_rng w') = S (S (S (pos (w_rng w)))).
Proof.
  cbv zeta. unfold update.
  rewrite drop_one_needle_unfold. cbv zeta.
  destruct (crossing L t _ _) as [c | e].
  - destruct c; cbn [crosses st_i st_crosses];
      destruct (estimate_pi _ _ L t) as [p | e];
      cbn [snd w_state w_log w_rng pos].
    + exists true. eexists. split; [reflexivity |]. split.
      * rewrite <- !app_assoc. reflexivity.
      * split; reflexivity.
    + exists true. eexists. split; [reflexivity |]. split.
      * rewrite <- !app_assoc. reflexivity.
      * split; reflexivity.
    + exists false. eexists. split; [rewrite Z.add_0_r; reflexivity |]. split.
      * rewrite <- !app_assoc. reflexivity.
      * split; reflexivity.
    + exists false. eexists. split; [rewrite Z.add_0_r; reflexivity |]. split.
      * rewrite <- !app_assoc. reflexivity.
      * split; reflexivity.
  - cbn [snd w_state w_log w_rng pos].
    exists false. eexists. split; [rewrite Z.add_0_r; reflexivity |]. split.
    + reflexivity.
    + split; reflexivity.
Qed.

Lemma state_le_refl (s : SimState) : state_le s s.
Proof. unfold state_le. lia. Qed.

Lemma state_le_trans (a b c : SimState) :
  state_le a b -> state_le b c -> state_le a c.
Proof. unfold state_le. lia. Qed.

Lemma StronglySorted_snoc {A : Type} (le : A -> A -> Prop)
      (l : list A) (a : A) :
  StronglySorted le l -> Forall (fun b => le b a) l ->
  StronglySorted le (l ++ [a]).
Proof.
  induction l as [| b l IH]; intros Hs Hf; cbn.
  - constructor; constructor.
  - inversion Hs as [| ? ? Hs' Hb]; subst.
    inversion Hf as [| ? ? Hba Hf']; subst.
    constructor.
    + apply IH; assumption.
    + apply Forall_app. split; [exact Hb |].
      constructor; [exact Hba | constructor].
Qed.

Lemma hd_error_app_some {A : Type} (l l' : list A) (a : A) :
  hd_error l = Some a -> hd_error (l ++ l') = Some a.
Proof. destruct l; [discriminate | intro H; exact H]. Qed.

(** Appending a state that is in order and not below the current one keeps
    the invariant. *)
Lemma log_inv_push (st : SimState) (g g' : Rng) (log extra : list Event)
      (s' : SimState) :
  log_inv (mkWorld st g log) ->
  states_of extra = [s'] ->
  counters_ok s' -> state_le st s' ->
  log_inv (mkWorld s' g' (log ++ extra)).
Proof.
  unfold log_inv. cbn [w_state w_log].
  intros (Hc & Hall & Hsort & Hbelow & Hhd) Hex Hc' Hle.
  rewrite states_of_app, Hex.
  assert (Hbelow' : Forall (fun a => state_le a s') (states_of log)).
  { eapply Forall_impl; [| exact Hbelow].
    intros a Ha. cbn in Ha. eapply state_le_trans; eassumption. }
  split; [| split; [| split; [| split]]].
  - exact Hc'.
  - apply Forall_app. split; [exact Hall | constructor; [exact Hc' | constructor]].
  - apply StronglySorted_snoc; assumption.
  - apply Forall_app. split; [exact Hbelow' |].
    constructor; [apply state_le_refl | constructor].
  - apply hd_error_app_some. exact Hhd.
Qed.

Lemma update_log_inv (L t : R) (xlim ylim : R * R) (w : World) :
  log_inv w -> log_inv (snd (update L t xlim ylim w)).
Proof.
  intro Hw.
  destruct (update_step L t xlim ylim w) as (hit & extra & Hst & Hlog & Hex & _).
  destruct (snd (update L t xlim ylim w)) as [st' g' log'].
  cbn [w_state w_log] in Hst, Hlog. subst st' log'.
  destruct w as [st g log]. cbn [w_state w_log] in *.
  assert (Hc : counters_ok st) by (destruct Hw as [Hc _]; exact Hc).
  unfold counters_ok in Hc.
  destruct hit.
  - (* two assignments: split the log in two pushes *)
    assert (Hsplit :
      exists e1 e2, extra = e1 ++ e2
                    /\ states_of e1 = [mkState (st_i st + 1) (st_crosses st)]
                    /\ states_of e2
                       = [mkState (st_i st + 1) (st_crosses st + 1)]).
    { clear Hw Hc. revert Hex.
      induction extra as [| e extra IH]; cbn; intro Hex; [discriminate |].
      destruct e;
        try (destruct (IH Hex) as (e1 & e2 & E & H1 & H2);
             eexists (_ :: e1), e2; subst extra;
             split; [reflexivity | split; [exact H1 | exact H2]]).
      injection Hex as Hs Hrest. subst s.
      exists [EvState (mkState (st_i st + 1) (st_crosses st))], extra.
      split; [reflexivity | split; [reflexivity | exact Hrest]]. }
    destruct Hsplit as (e1 & e2 & E & H1 & H2). subst extra.
    rewrite app_assoc.
    eapply (log_inv_push _ g g' (log ++ e1) e2); [| exact H2 | |].
    + eapply (log_inv_push st g g log e1); [exact Hw | exact H1 | |].
      * unfold counters_ok. cbn. lia.
      * unfold state_le. cbn. lia.
    + unfold counters_ok. cbn. lia.
    + unfold state_le. cbn. lia.
  - eapply (log_inv_push st g g' log extra); [exact Hw | | |].
    + rewrite Hex. rewrite Z.add_0_r. reflexivity.
    + unfold counters_ok. cbn. lia.
    + unfold state_le. cbn. lia.
Qed.

Lemma init_log_inv (w : World) : log_inv w -> log_inv (init w).
Proof.
  unfold log_inv, init. cbn [w_state w_log].
  rewrite states_of_app. cbn [states_of]. rewrite app_nil_r.
  intro H. exact H.
Qed.

Lemma play_log_inv (calls : list Callback) (L t : R) (xlim ylim : R * R)
      (w : World) :
  log_inv w -> log_inv (snd (play calls L t xlim ylim w)).
Proof.
  revert w. induction calls as [| c calls IH]; intros w Hw; cbn.
  - exact Hw.
  - destruct c.
    + apply IH. apply init_log_inv. exact Hw.
    + pose proof (update_log_inv L t xlim ylim w Hw) as Hu.
      destruct (update L t xlim ylim w) as [[u | e] w']; cbn [snd] in *.
      * apply IH. exact Hu.
      * exact Hu.
Qed.

(** The shape of every run: rejected, stopped while the figure was built,
    or played from the fresh state. *)
Lemma run_simulation_cases (lib : Animation) (N speed_ms : Z) (L t : R)
      (d : nat -> R) :
  (exists e, run_simulation lib N speed_ms L t d = mkRun (Raise e) None)
  \/ exists lines,
      make_base_figure (-3, 3) (-3, 3) t = Ok lines
      /\ L <= t
      /\ let w0 :=
           mkWorld (mkState 0 0) (mkRng d O)
                   [EvFigure lines; EvState (mkState 0 0);
                    EvAnimation N (Z.max 1 speed_ms)] in
         let pb := lib N (Z.max 1 speed_ms) in
         let p := play (pb_calls pb) L t (-3, 3) (-3, 3) w0 in
         log_inv w0
         /\ run_simulation lib N speed_ms L t d
            = mkRun (match fst p with
                     | Raise e => Raise e
                     | Ok _ => pb_end pb
                     end)
                    (Some (snd p)).
Proof.
  unfold run_simulation.
  destruct (Rgtb L t) eqn:Hgt.
  - left. eexists. reflexivity.
  - destruct (make_base_figure (-3, 3) (-3, 3) t) as [lines | e].
    + right. exists lines. split; [reflexivity |].
      split; [apply Rgtb_false_iff; exact Hgt |].
      cbv zeta. split.
      * unfold log_inv, counters_ok, state_le. cbn.
        repeat split; try lia; repeat constructor; cbn; lia.
      * destruct (play _ L t _ _ _) as [[u | e] w]; reflexivity.
    + left. eexists. reflexivity.
Qed.

(** C5. One frame of [update], whether it completes or raises, raises
    the trial counter by exactly 1 and the crossing counter by 0 or 1.  In
    every run, every value the state takes has 0 <= crossings <= trials,
    the values never decrease in either counter, and the first of them, if
    the run got that far, is the fresh state (0, 0). *)
Theorem counters_invariant :
  (forall (L t : R) (xlim ylim : R * R) (w : World),
      let w' := snd (update L t xlim ylim w) in
      st_i (w_state w') = (st_i (w_state w) + 1)%Z
      /\ (st_crosses (w_state w') = st_crosses (w_state w)
          \/ st_crosses (w_state w') = (st_crosses (w_state w) + 1)%Z))
  /\ (forall (lib : Animation) (N speed_ms : Z) (L t : R) (d : nat -> R),
         let r := run_simulation lib N speed_ms L t d in
         Forall counters_ok (states_of (run_log r))
         /\ StronglySorted state_le (states_of (run_log r))
         /\ hd_error (states_of (run_log r))
            = option_map (fun _ => mkState 0 0) (run_state r)
         /\ (forall s, run_state r = Some s -> counters_ok s)).
Proof.
  split.
  - intros L t xlim ylim w. cbv zeta.
    destruct (update_step L t xlim ylim w) as (hit & extra & Hst & _).
    rewrite Hst. cbn. split; [reflexivity |].
    destruct hit; [right; reflexivity | left; lia].
  - intros lib N speed_ms L t d. cbv zeta.
    destruct (run_simulation_cases lib N speed_ms L t d)
      as [[e E] | (lines & _ & _ & H)].
    + rewrite E. cbn.
      split; [constructor |]. split; [constructor |]. split; [reflexivity |].
      intros s Hs. discriminate Hs.
    + cbv zeta in H. destruct H as [H0 E]. rewrite E.
      pose proof (play_log_inv (pb_calls (lib N (Z.max 1 speed_ms)))
                               L t (-3, 3) (-3, 3) _ H0) as Hp.
      unfold run_log, run_state. cbn [run_world option_map].
      destruct Hp as (Hc & Hall & Hsort & _ & Hhd).
      split; [exact Hall |]. split; [exact Hsort |]. split; [exact Hhd |].
      intros s Hs. injection Hs as Hs. subst s. exact Hc.
Qed.

(** ** Runs that reach the animation *)

Lemma update_ok (L t : R) (xlim ylim : R * R) (w : World) :
  t <> 0 -> fst (update L t xlim ylim w) = Ok tt.
Proof.
  intro Ht. unfold update.
  destruct (drop_one_needle_ok L t xlim ylim (w_rng w) Ht) as (nd & E & _).
  rewrite E.
  match goal with
  | |- context [estimate_pi ?c ?n L t] =>
      destruct (estimate_pi_ok c n L t Ht) as [p Hp]; rewrite Hp
  end.
  reflexivity.
Qed.

Lemma animations_of_app (l1 l2 : list Event) :
  animations_of (l1 ++ l2) = animations_of l1 ++ animations_of l2.
Proof.
  induction l1 as [| e l1 IH]; [reflexivity |].
  destruct e; cbn; rewrite IH; reflexivity.
Qed.

(** A frame does not touch the animation object. *)
Lemma update_animations (L t : R) (xlim ylim : R * R) (w : World) :
  animations_of (w_log (snd (update L t xlim ylim w)))
  = animations_of (w_log w).
Proof.
  unfold update. rewrite drop_one_needle_unfold. cbv zeta.
  destruct (crossing L t _ _) as [c | e].
  - destruct c; cbn [crosses]; destruct (estimate_pi _ _ L t) as [p | e];
      cbn [snd w_log]; rewrite !animations_of_app; cbn;
      rewrite ?app_nil_r; reflexivity.
  - cbn [snd w_log]. rewrite animations_of_app. cbn.
    rewrite app_nil_r. reflexivity.
Qed.

Lemma play_animations (calls : list Callback) (L t : R) (xlim ylim : R * R)
      (w : World) :
  animations_of (w_log (snd (play calls L t xlim ylim w)))
  = animations_of (w_log w).
Proof.
  revert w. induction calls as [| c calls IH]; intro w; cbn.
  - reflexivity.
  - destruct c.
    + rewrite IH. unfold init. cbn [w_log].
      rewrite animations_of_app. cbn. rewrite app_nil_r. reflexivity.
    + pose proof (update_animations L t xlim ylim w) as Hu.
      destruct (update L t xlim ylim w) as [[u | e] w']; cbn [snd] in *.
      * rewrite IH. exact Hu.
      * exact Hu.
Qed.

(** With a spacing other than zero no call raises: every [update] call
    counts one trial and consumes three draws. *)
Lemma play_ok (calls : list Callback) (L t : R) (xlim ylim : R * R)
      (w : World) :
  t <> 0 ->
  let p := play calls L t xlim ylim w in
  fst p = Ok tt
  /\ st_i (w_state (snd p))
     = (st_i (w_state w) + Z.of_nat (updates_in calls))%Z
  /\ pos (w_rng (snd p)) = (pos (w_rng w) + 3 * updates_in calls)%nat.
Proof.
  intro Ht. revert w. induction calls as [| c calls IH]; intro w; cbv zeta.
  - cbn. repeat split; lia.
  - destruct c; cbn [play updates_in].
    + destruct (IH (init w)) as (Hr & Hi & Hp).
      split; [exact Hr |]. split; [exact Hi | exact Hp].
    + pose proof (update_ok L t xlim ylim w Ht) as Hu.
      destruct (update_step L t xlim ylim w)
        as (hit & extra & Hst & _ & _ & Hpos).
      destruct (update L t xlim ylim w) as [r w']. cbn [fst snd] in *.
      subst r.
      destruct (IH w') as (Hr & Hi & Hp).
      split; [exact Hr |].
      split; [rewrite Hi, Hst; cbn; lia |].
      rewrite Hp, Hpos; lia.
Qed.

Lemma make_base_figure_ok (xlim ylim : R * R) (t : R) :
  t <> 0 -> exists lines, make_base_figure xlim ylim t = Ok lines.
Proof.
  intro Ht. unfold make_base_figure.
  rewrite !py_div_ok by exact Ht. eexists. reflexivity.
Qed.

(** A valid configuration reaches the animation, no callback raises, and
    the run ends as the playback ends. *)
Lemma run_simulation_started (lib : Animation) (N speed_ms : Z) (L t : R)
      (d : nat -> R) :
  L <= t -> t <> 0 ->
  exists w,
    run_simulation lib N speed_ms L t d
    = mkRun (pb_end (lib N (Z.max 1 speed_ms))) (Some w)
    /\ st_i (w_state w)
       = Z.of_nat (updates_in (pb_calls (lib N (Z.max 1 speed_ms))))
    /\ pos (w_rng w)
       = (3 * updates_in (pb_calls (lib N (Z.max 1 speed_ms))))%nat
    /\ animations_of (w_log w) = [(N, Z.max 1 speed_ms)].
Proof.
  intros HLt Ht.
  destruct (run_simulation_cases lib N speed_ms L t d)
    as [[e E] | (lines & Hfig & _ & H)].
  - exfalso. unfold run_simulation in E.
    apply Rgtb_false_iff in HLt. rewrite HLt in E.
    destruct (make_base_figure_ok (-3, 3) (-3, 3) t Ht) as [lines Hfig].
    rewrite Hfig in E. cbv zeta in E.
    destruct (play _ L t _ _ _) as [[u | e'] w] in E; discriminate E.
  - cbv zeta in H. destruct H as [_ E].
    match type of E with
    | context [play ?c L t ?xl ?yl ?w0] =>
        destruct (play_ok c L t xl yl w0 Ht) as (Hr & Hi & Hp);
        pose proof (play_animations c L t xl yl w0) as Ha
    end.
    cbn [w_state w_rng w_log st_i pos] in Hi, Hp, Ha.
    eexists.
    split; [rewrite E, Hr; reflexivity |].
    split; [rewrite Hi; lia |].
    split; [rewrite Hp; lia | exact Ha].
Qed.

Lemma updates_in_plain (frames interval : Z) :
  updates_in (pb_calls (plain_animation frames interval)) = Z.to_nat frames.
Proof.
  unfold plain_animation. cbn.
  induction (Z.to_nat frames) as [| n IH]; cbn; [reflexivity |].
  rewrite IH. reflexivity.
Qed.

(** ** The prompt *)

Example py_int_accepts :
  py_int "  42 " = Ok 42%Z /\ py_int "+7" = Ok 7%Z /\ py_int "007" = Ok 7%Z
  /\ py_int "1_000" = Ok 1000%Z /\ py_int "0" = Ok 0%Z
  /\ py_int "-5" = Ok (-5)%Z.
Proof. repeat split. Qed.

Example py_int_rejects :
  forall s,
    In s ["abc"; ""; "3.5"; "1e3"; "- 5"; "--1"; "+"; "1__0"; "_1"; "1_";
          "12 needles"]%string ->
    py_int s = Raise (ValueError "invalid literal for int() with base 10").
Proof.
  intros s H. cbn in H.
  repeat (destruct H as [H | H]; [subst s; reflexivity |]).
  contradiction.
Qed.

(** C9, as the code has it. Whatever [str.strip] and [int] do and whatever
    the plotting library does: when reading the count raises (the text is
    no integer literal, or the input is exhausted), the program prints the
    diagnostic after the banner and runs the simulation with N = 300; that
    run creates its one animation with frames = 300, none of the program's
    own code raises, the run ends as the library's playback ends, and with
    a library that plays the 300 frames it counts 300 trials.  When the
    text is read as an integer, positive or not, that value is passed to
    the driver unchanged and no diagnostic is printed. *)
Theorem prompt_fallback (py : Builtins) (lib : Animation)
        (stdin : option string) (d : nat -> R) :
  (forall e,
      read_count py stdin = Raise e ->
      main py lib stdin d
      = (banner ++ [fallback_message], run_simulation lib 300 10 1 1 d)
      /\ exists w,
          run_simulation lib 300 10 1 1 d
          = mkRun (pb_end (lib 300%Z 10%Z)) (Some w)
          /\ animations_of (w_log w) = [(300, 10)]%Z
          /\ (lib 300%Z 10%Z = plain_animation 300%Z 10%Z ->
              run_simulation lib 300 10 1 1 d = mkRun (Ok tt) (Some w)
              /\ st_i (w_state w) = 300%Z
              /\ pos (w_rng w) = 900%nat))
  /\ (forall n,
         read_count py stdin = Ok n ->
         main py lib stdin d = (banner, run_simulation lib n 10 1 1 d)
         /\ animations_of (run_log (run_simulation lib n 10 1 1 d))
            = [(n, 10)]%Z).
Proof.
  split.
  - intros e He. unfold main. rewrite He. split; [reflexivity |].
    destruct (run_simulation_started lib 300 10 1 1 d)
      as (w & E & Hi & Hp & Ha); [lra | lra |].
    change (Z.max 1 10) with 10%Z in *.
    exists w. split; [exact E |]. split; [exact Ha |].
    intro Hlib. rewrite Hlib in E, Hi, Hp.
    rewrite updates_in_plain in Hi, Hp.
    split; [exact E |]. split; [exact Hi | exact Hp].
  - intros n Hn. unfold main. rewrite Hn. split; [reflexivity |].
    destruct (run_simulation_started lib n 10 1 1 d)
      as (w & E & _ & _ & Ha); [lra | lra |].
    rewrite E. exact Ha.
Qed.

Lemma prompt_fallback_witness :
  read_count ascii_builtins (Some "12 needles"%string)
  = Raise (ValueError "invalid literal for int() with base 10")
  /\ fst (main ascii_builtins plain_animation (Some "12 needles"%string)
               d_half)
     = banner ++ [fallback_message]
  /\ snd (main ascii_builtins plain_animation (Some "12 needles"%string)
               d_half)
     = run_simulation plain_animation 300 10 1 1 d_half.
Proof.
  assert (H : read_count ascii_builtins (Some "12 needles"%string)
              = Raise (ValueError "invalid literal for int() with base 10"))
    by reflexivity.
  destruct (proj1 (prompt_fallback ascii_builtins plain_animation
                                   (Some "12 needles"%string) d_half) _ H)
    as (E & _).
  split; [exact H |]. rewrite E. split; reflexivity.
Defined.

(** C9, as stated, fails: the text "-5" is not a positive integer, yet,
    whatever the plotting library does, no diagnostic is printed and the
    driver is started with N = -5: the animation it creates has
    frames = -5, not 300. *)
Lemma prompt_negative_count_not_replaced :
  read_count ascii_builtins (Some "-5"%string) = Ok (-5)%Z
  /\ forall (lib : Animation) (d : nat -> R),
      let r := main ascii_builtins lib (Some "-5"%string) d in
      fst r = banner
      /\ ~ In fallback_message (fst r)
      /\ snd r = run_simulation lib (-5) 10 1 1 d
      /\ animations_of (run_log (snd r)) = [(-5, 10)]%Z
      /\ animations_of (run_log (snd r)) <> [(300, 10)]%Z.
Proof.
  assert (H : read_count ascii_builtins (Some "-5"%string) = Ok (-5)%Z)
    by reflexivity.
  split; [exact H |]. intros lib d. cbv zeta.
  assert (Hm : main ascii_builtins lib (Some "-5"%string) d
               = (banner, run_simulation lib (-5) 10 1 1 d)).
  { unfold main. rewrite H. reflexivity. }
  rewrite Hm. cbn [fst snd].
  destruct (run_simulation_started lib (-5) 10 1 1 d)
    as (w & E & _ & _ & Ha); [lra | lra |].
  change (Z.max 1 10) with 10%Z in *.
  assert (Hlog : animations_of (run_log (run_simulation lib (-5) 10 1 1 d))
                 = [(-5, 10)]%Z) by (rewrite E; exact Ha).
  split; [reflexivity |]. split.
  - unfold banner, fallback_message, print, prompt, nl. cbn.
    intros [F | [F | [F | []]]]; discriminate F.
  - split; [reflexivity |]. split; [exact Hlog |].
    rewrite Hlog. intro F. discriminate F.
Qed.

(** * Further properties of the sampler *)

Lemma Int_part_shift (r : R) (k : Z) :
  Int_part (r + IZR k) = (Int_part r + k)%Z.
Proof.
  symmetry. apply Int_part_spec.
  destruct (base_Int_part r) as [Hle Hgt].
  rewrite plus_IZR. split; lra.
Qed.

Lemma py_mod_shift (y t : R) (k : Z) :
  py_mod (y + IZR k * t) t = py_mod y t.
Proof.
  destruct (Req_dec_T t 0) as [Ht | Ht].
  - subst t. rewrite !py_mod_zero. reflexivity.
  - rewrite !py_mod_ok by exact Ht. f_equal.
    replace ((y + IZR k * t) / t) with (y / t + IZR k) by (field; exact Ht).
    rewrite Int_part_shift, plus_IZR. ring.
Qed.

(** X1. The flag does not change when the center moves by a whole number of
    spacings: the rule only sees the position of the center between two
    neighbouring lines. *)
Theorem crossing_periodic (L t y theta : R) (k : Z) :
  crossing L t (y + IZR k * t) theta = crossing L t y theta.
Proof. unfold crossing. rewrite py_mod_shift. reflexivity. Qed.

Lemma Int_part_opp_whole (r : R) :
  IZR (Int_part r) = r -> Int_part (- r) = (- Int_part r)%Z.
Proof.
  intro H. symmetry. apply Int_part_spec. rewrite opp_IZR. lra.
Qed.

Lemma Int_part_opp_frac (r : R) :
  IZR (Int_part r) <> r -> Int_part (- r) = (- Int_part r - 1)%Z.
Proof.
  intro H. symmetry. apply Int_part_spec.
  destruct (base_Int_part r) as [Hle Hgt].
  rewrite minus_IZR, opp_IZR. split; lra.
Qed.

(** X2. The flag is the same for a center and for its mirror image through the
    line y = 0 (hence through any line): the distance to the nearest line
    is. *)
Theorem crossing_mirror (L t y theta : R) :
  crossing L t (- y) theta = crossing L t y theta.
Proof.
  unfold crossing.
  destruct (Req_dec_T t 0) as [Ht | Ht].
  - subst t. rewrite !py_mod_zero. reflexivity.
  - rewrite !py_mod_ok by exact Ht.
    replace (- y / t) with (- (y / t)) by (field; exact Ht).
    assert (Hy : y / t * t = y) by (field; exact Ht).
    cbv zeta. do 2 f_equal.
    destruct (Req_dec_T (IZR (Int_part (y / t))) (y / t)) as [Hw | Hf].
    + rewrite (Int_part_opp_whole _ Hw), opp_IZR, Hw.
      f_equal; nra.
    + rewrite (Int_part_opp_frac _ Hf), minus_IZR, opp_IZR.
      rewrite Rmin_comm. f_equal; nra.
Qed.

(** X3. With draws in [0, 1) the orientation of a sampled needle lies in
    [0, PI), so its sine is not negative: for a needle of length L >= 0 the
    half extent (L/2) sin(theta) that the rule compares is not negative. *)
Theorem orientation_range (L t : R) (xlim ylim : R * R) (rng : Rng) :
  unit_draws (draws rng) -> t <> 0 ->
  exists nd,
    fst (drop_one_needle L t xlim ylim rng) = Ok nd
    /\ 0 <= theta nd < PI
    /\ 0 <= sin (theta nd)
    /\ (0 <= L -> 0 <= (L / 2) * sin (theta nd)).
Proof.
  intros Hd Ht.
  destruct (drop_one_needle_ok L t xlim ylim rng Ht)
    as (nd & E & _ & _ & _ & Hth).
  exists nd. rewrite E. split; [reflexivity |].
  destruct (Hd (S (S (pos rng)))) as [Hlo Hhi].
  pose proof PI_RGT_0 as Hpi.
  assert (Hrange : 0 <= theta nd < PI) by (rewrite Hth; split; nra).
  assert (Hsin : 0 <= sin (theta nd)) by (apply sin_ge_0; lra).
  split; [exact Hrange |]. split; [exact Hsin |].
  intro HL. apply Rmult_le_pos; lra.
Qed.

Lemma orientation_range_witness :
  exists nd,
    fst (drop_one_needle 1 1 (-3, 3) (-3, 3) (mkRng d_half 0)) = Ok nd
    /\ 0 <= theta nd < PI.
Proof.
  destruct (orientation_range 1 1 (-3, 3) (-3, 3) (mkRng d_half 0))
    as (nd & E & Hr & _).
  - exact d_half_unit.
  - lra.
  - exists nd. split; [exact E | exact Hr].
Defined.

(** X4. A longer needle at the same center and orientation crosses whenever
    the shorter one does, for orientations with a sine that is not
    negative (those the sampler produces). *)
Theorem crossing_monotone_in_length (L L' t y theta : R) :
  L <= L' -> 0 <= sin theta ->
  crossing L t y theta = Ok true ->
  crossing L' t y theta = Ok true.
Proof.
  intros HL Hs. unfold crossing.
  destruct (py_mod y t) as [off | e]; [| intro H; exact H].
  intro H. injection H as H. f_equal.
  apply Rgeb_true_iff in H. apply Rgeb_true_iff.
  assert (L / 2 * sin theta <= L' / 2 * sin theta) by nra.
  lra.
Qed.

Lemma crossing_monotone_in_length_witness :
  crossing 2 1 (5 / 4) (PI / 2) = Ok true.
Proof.
  apply (crossing_monotone_in_length 1 2 1 (5 / 4) (PI / 2)).
  - lra.
  - rewrite sin_PI2. lra.
  - apply crossing_upright_full. lra.
Defined.

Lemma crossing_meets_line (L t y theta : R) :
  0 < t ->
  exists b,
    crossing L t y theta = Ok b
    /\ (b = true <->
        exists k : Z,
          y - (L / 2) * sin theta <= IZR k * t <= y + (L / 2) * sin theta).
Proof.
  intro Ht.
  destruct (py_mod_range y t Ht) as (k0 & off & Hmod & [Hlo Hhi] & Hy).
  unfold crossing. rewrite Hmod. eexists. split; [reflexivity |].
  rewrite Rgeb_true_iff.
  set (dy := L / 2 * sin theta).
  split.
  - intro Hge. unfold Rmin in Hge.
    destruct (Rle_dec off (t - off)) as [Hle | Hnle].
    + exists k0. split; lra.
    + exists (k0 + 1)%Z. rewrite plus_IZR. split; lra.
  - intros [k [Hk1 Hk2]].
    destruct (Z_le_gt_dec k k0) as [Hle | Hgt].
    + apply IZR_le in Hle.
      assert (IZR k * t <= IZR k0 * t) by nra.
      pose proof (Rmin_l off (t - off)). lra.
    + assert (Hge : (k0 + 1 <= k)%Z) by lia.
      apply IZR_le in Hge. rewrite plus_IZR in Hge.
      assert ((IZR k0 + 1) * t <= IZR k * t) by nra.
      pose proof (Rmin_r off (t - off)). lra.
Qed.

(** X5. The geometry behind the flag.  For a positive spacing the flag is
    true exactly when the half extent (L/2) sin(theta) is not negative and
    some grid line y = k * t lies between the heights of the two endpoints
    that [draw_needle] plots, y - (L/2) sin(theta) and y + (L/2) sin(theta);
    touching counts.  With a negative half extent (L < 0 or sin(theta) < 0)
    the flag is false, also when the plotted segment spans a line. *)
Theorem crossing_iff_segment_meets_line (L t y theta : R) :
  0 < t ->
  let y0 := y - (L / 2) * sin theta in
  let y1 := y + (L / 2) * sin theta in
  exists b,
    crossing L t y theta = Ok b
    /\ (b = true <->
        0 <= (L / 2) * sin theta
        /\ exists k : Z, Rmin y0 y1 <= IZR k * t <= Rmax y0 y1).
Proof.
  intros Ht y0 y1.
  destruct (crossing_meets_line L t y theta Ht) as (b & Hb & Hiff).
  exists b. split; [exact Hb |]. rewrite Hiff. subst y0 y1.
  split.
  - intros [k [H1 H2]].
    assert (Hdy : 0 <= L / 2 * sin theta) by lra.
    split; [exact Hdy |]. exists k.
    rewrite Rmin_left, Rmax_right by lra. split; assumption.
  - intros [Hdy [k Hk]]. exists k.
    rewrite Rmin_left, Rmax_right in Hk by lra. exact Hk.
Qed.

Lemma crossing_iff_segment_meets_line_witness :
  exists b,
    crossing 1 1 (5 / 4) (PI / 2) = Ok b
    /\ (b = true <->
        0 <= (1 / 2) * sin (PI / 2)
        /\ exists k : Z,
            Rmin (5 / 4 - (1 / 2) * sin (PI / 2))
                 (5 / 4 + (1 / 2) * sin (PI / 2))
            <= IZR k * 1
            <= Rmax (5 / 4 - (1 / 2) * sin (PI / 2))
                    (5 / 4 + (1 / 2) * sin (PI / 2))).
Proof.
  apply (crossing_iff_segment_meets_line 1 1 (5 / 4) (PI / 2)). lra.
Defined.

(** X6. The sampler does not check that the region is large enough for the
    padding: whatever the bounds, with draws in [0, 1) the center lies
    between the two padded bounds, in whichever order they are.  In a
    region narrower than L the bounds are swapped and the needle can reach
    out of the region. *)
Theorem center_between_padded_bounds
  (L t xmin xmax ymin ymax : R) (rng : Rng) :
  unit_draws (draws rng) -> t <> 0 ->
  exists nd,
    fst (drop_one_needle L t (xmin, xmax) (ymin, ymax) rng) = Ok nd
    /\ Rmin (xmin + L / 2) (xmax - L / 2) <= x nd
       <= Rmax (xmin + L / 2) (xmax - L / 2)
    /\ Rmin (ymin + t / 2) (ymax - t / 2) <= y nd
       <= Rmax (ymin + t / 2) (ymax - t / 2).
Proof.
  intros Hd Ht.
  destruct (drop_one_needle_ok L t (xmin, xmax) (ymin, ymax) rng Ht)
    as (nd & E & _ & Hx & Hy & _).
  cbn [fst snd] in Hx, Hy.
  exists nd. rewrite E. split; [reflexivity |].
  destruct (Hd (pos rng)) as [Hx0 Hx1].
  destruct (Hd (S (pos rng))) as [Hy0 Hy1].
  rewrite Hx, Hy. unfold Rmin, Rmax.
  split.
  - destruct (Rle_dec (xmin + L / 2) (xmax - L / 2)); split; nra.
  - destruct (Rle_dec (ymin + t / 2) (ymax - t / 2)); split; nra.
Qed.

Lemma center_between_padded_bounds_witness :
  exists nd,
    fst (drop_one_needle 2 1 (0, 1) (0, 1) (mkRng d_half 0)) = Ok nd
    /\ Rmin (0 + 2 / 2) (1 - 2 / 2) <= x nd <= Rmax (0 + 2 / 2) (1 - 2 / 2)
    /\ Rmin (0 + 1 / 2) (1 - 1 / 2) <= y nd <= Rmax (0 + 1 / 2) (1 - 1 / 2).
Proof.
  apply (center_between_padded_bounds 2 1 0 1 0 1 (mkRng d_half 0)).
  - exact d_half_unit.
  - lra.
Defined.

(** * Further properties of the estimator *)

(** X8. Only the ratio of needle length to spacing matters: scaling both by the
    same factor other than zero leaves the result unchanged, raised
    exception included. *)
Theorem estimate_pi_scale_invariant (crossings trials : Z) (L t k : R) :
  k <> 0 ->
  estimate_pi crossings trials (k * L) (k * t)
  = estimate_pi crossings trials L t.
Proof.
  intro Hk. unfold estimate_pi.
  destruct (crossings =? 0)%Z eqn:Ec; [reflexivity |].
  apply Z.eqb_neq in Ec.
  assert (Hc : IZR crossings <> 0) by (apply not_0_IZR; exact Ec).
  destruct (Req_dec_T t 0) as [Ht | Ht].
  - subst t. rewrite !Rmult_0_r, !py_div_zero. reflexivity.
  - rewrite !py_div_ok.
    + do 2 f_equal. field. repeat split; assumption.
    + apply Rmult_integral_contrapositive_currified; assumption.
    + apply Rmult_integral_contrapositive_currified; [exact Hc |].
      apply Rmult_integral_contrapositive_currified; assumption.
Qed.

Lemma estimate_pi_scale_invariant_witness :
  estimate_pi 2 3 (5 * 1) (5 * 1) = estimate_pi 2 3 1 1.
Proof.
  apply (estimate_pi_scale_invariant 2 3 1 1 5). lra.
Defined.

(** X9. When the crossings do not exceed the trials, as in every run, a finite
    estimate is at least 2 L / t: with L = t the program never shows a
    finite value below 2. *)
Theorem estimate_pi_lower_bound (crossings trials : Z) (L t : R) :
  (0 < crossings <= trials)%Z -> 0 <= L -> 0 < t ->
  exists q,
    estimate_pi crossings trials L t = Ok (Finite q) /\ 2 * L / t <= q.
Proof.
  intros [Hc Hn] HL Ht.
  assert (Hcr : 0 < IZR crossings) by (apply IZR_lt; exact Hc).
  assert (Hnr : IZR crossings <= IZR trials) by (apply IZR_le; exact Hn).
  unfold estimate_pi.
  destruct (crossings =? 0)%Z eqn:Ec; [apply Z.eqb_eq in Ec; lia |].
  rewrite py_div_ok by nra.
  eexists. split; [reflexivity |].
  apply Rmult_le_reg_r with (r := IZR crossings * t); [nra |].
  replace (2 * L * IZR trials / (IZR crossings * t) * (IZR crossings * t))
    with (2 * L * IZR trials) by (field; lra).
  replace (2 * L / t * (IZR crossings * t))
    with (2 * L * IZR crossings) by (field; lra).
  nra.
Qed.

Lemma estimate_pi_lower_bound_witness :
  exists q, estimate_pi 2 3 1 1 = Ok (Finite q) /\ 2 * 1 / 1 <= q.
Proof.
  apply (estimate_pi_lower_bound 2 3 1 1).
  - lia.
  - lra.
  - lra.
Defined.

(** * The figure *)

Lemma py_range_In (a b k : Z) :
  In k (py_range a b) <-> (a <= k < b)%Z.
Proof.
  unfold py_range. rewrite in_map_iff. split.
  - intros [n [E Hin]]. apply in_seq in Hin. lia.
  - intro H. exists (Z.to_nat (k - a)). split; [lia |].
    apply in_seq. lia.
Qed.

Lemma py_range_length (a b : Z) :
  List.length (py_range a b) = Z.to_nat (b - a).
Proof. unfold py_range. rewrite length_map, length_seq. reflexivity. Qed.

(** X10. For a positive spacing the figure is built without error, every line
    it draws is a grid line of the crossing rule, and every grid line whose
    height lies in the window is drawn; the number of lines is
    ceil(ymax / t) - floor(ymin / t) + 3. *)
Theorem grid_lines_cover_window (xlim ylim : R * R) (t : R) :
  0 < t ->
  exists lines,
    make_base_figure xlim ylim t = Ok lines
    /\ (forall h, In h lines -> on_line h t)
    /\ (forall h, on_line h t -> fst ylim <= h <= snd ylim -> In h lines)
    /\ List.length lines
       = Z.to_nat (ceil (snd ylim / t) - Int_part (fst ylim / t) + 3).
Proof.
  intro Ht. unfold make_base_figure.
  rewrite !py_div_ok by lra.
  eexists. split; [reflexivity |]. split; [| split].
  - intros h Hin. apply in_map_iff in Hin.
    destruct Hin as [k [E _]]. exists k. symmetry. exact E.
  - intros h [k Hk] [Hlo Hhi]. subst h.
    apply in_map_iff. exists k. split; [reflexivity |].
    apply py_range_In.
    assert (Hq1 : fst ylim / t * t = fst ylim) by (field; lra).
    assert (Hq2 : snd ylim / t * t = snd ylim) by (field; lra).
    assert (H1 : fst ylim / t <= IZR k) by nra.
    assert (H2 : IZR k <= snd ylim / t) by nra.
    destruct (base_Int_part (fst ylim / t)) as [Ha _].
    destruct (base_Int_part (- (snd ylim / t))) as [Hb _].
    assert (Hk1 : (Int_part (fst ylim / t) <= k)%Z) by (apply le_IZR; lra).
    assert (Hk2 : (Int_part (- (snd ylim / t)) <= - k)%Z).
    { apply le_IZR. rewrite opp_IZR. lra. }
    unfold ceil. lia.
  - rewrite length_map, py_range_length. f_equal. lia.
Qed.

Lemma grid_lines_cover_window_witness :
  exists lines,
    make_base_figure (-3, 3) (-3, 3) 1 = Ok lines
    /\ (forall h, on_line h 1 -> -3 <= h <= 3 -> In h lines).
Proof.
  destruct (grid_lines_cover_window (-3, 3) (-3, 3) 1)
    as (lines & E & _ & Hcov & _).
  - lra.
  - exists lines. split; [exact E | exact Hcov].
Defined.

(** X11. The segment plotted for a needle has the needle's center as its
    midpoint and the length L. *)
Theorem draw_needle_segment (nd : Needle) (L : R) :
  exists x0 x1 y0 y1,
    draw_needle nd L = EvNeedle nd x0 x1 y0 y1
    /\ (x0 + x1) / 2 = x nd
    /\ (y0 + y1) / 2 = y nd
    /\ (x1 - x0) * (x1 - x0) + (y1 - y0) * (y1 - y0) = L * L.
Proof.
  unfold draw_needle. cbv zeta.
  do 4 eexists. split; [reflexivity |].
  split; [lra |]. split; [lra |].
  pose proof (sin2_cos2 (theta nd)) as H. unfold Rsqr in H.
  nra.
Qed.

(** * Frames and what they show *)

Lemma needles_of_app (l1 l2 : list Event) :
  needles_of (l1 ++ l2) = needles_of l1 ++ needles_of l2.
Proof.
  induction l1 as [| e l1 IH]; [reflexivity |].
  destruct e; cbn; rewrite IH; reflexivity.
Qed.

Lemma texts_of_app (l1 l2 : list Event) :
  texts_of (l1 ++ l2) = texts_of l1 ++ texts_of l2.
Proof.
  induction l1 as [| e l1 IH]; [reflexivity |].
  destruct e; cbn; rewrite IH; reflexivity.
Qed.

Lemma needles_of_frame (L t : R) (s : SimState) (nd : Needle) (p : pyfloat) :
  needles_of (frame_events L t s nd p) = [nd].
Proof. unfold frame_events, draw_needle. destruct (crosses nd); reflexivity. Qed.

Lemma texts_of_frame (L t : R) (s : SimState) (nd : Needle) (p : pyfloat) :
  texts_of (frame_events L t s nd p)
  = [(p, st_i (state_after s nd), st_crosses (state_after s nd))].
Proof. unfold frame_events, draw_needle. destruct (crosses nd); reflexivity. Qed.

Lemma hits_le_length (nds : list Needle) :
  (hits nds <= List.length nds)%nat.
Proof.
  unfold hits. induction nds as [| nd nds IH]; cbn; [lia |].
  destruct (crosses nd); cbn; lia.
Qed.

Lemma hits_snoc (nds : list Needle) (nd : Needle) :
  hits (nds ++ [nd]) = (hits nds + (if crosses nd then 1 else 0))%nat.
Proof.
  unfold hits. rewrite filter_app, length_app. cbn.
  destruct (crosses nd); reflexivity.
Qed.

Lemma estimate_pi_inf_iff (c n : Z) (L t : R) (p : pyfloat) :
  estimate_pi c n L t = Ok p -> (p = Inf <-> c = 0%Z).
Proof.
  unfold estimate_pi. destruct (c =? 0)%Z eqn:Ec.
  - apply Z.eqb_eq in Ec. intro H. injection H as H. subst p.
    split; intros _; [exact Ec | reflexivity].
  - apply Z.eqb_neq in Ec.
    destruct (py_div _ _) as [q | e]; intro H; [| discriminate H].
    injection H as H. subst p.
    split; [intro F; discriminate F | intro F; contradiction].
Qed.

(** A frame with a spacing other than zero: it samples a needle, the
    estimator returns, and the log grows by the events of the frame. *)
Lemma update_frame (L t : R) (xlim ylim : R * R) (w : World) :
  t <> 0 ->
  exists nd p,
    fst (drop_one_needle L t xlim ylim (w_rng w)) = Ok nd
    /\ estimate_pi (st_crosses (state_after (w_state w) nd))
                   (st_i (state_after (w_state w) nd)) L t = Ok p
    /\ update L t xlim ylim w
       = (Ok tt,
          mkWorld (state_after (w_state w) nd)
                  (mkRng (draws (w_rng w)) (S (S (S (pos (w_rng w))))))
                  (w_log w ++ frame_events L t (w_state w) nd p)).
Proof.
  intro Ht.
  destruct (drop_one_needle_ok L t xlim ylim (w_rng w) Ht) as (nd & E & _).
  destruct (estimate_pi_ok (st_crosses (state_after (w_state w) nd))
                           (st_i (state_after (w_state w) nd)) L t Ht)
    as [p Hp].
  exists nd, p. rewrite E. split; [reflexivity |]. split; [exact Hp |].
  unfold update. rewrite E.
  unfold frame_events. unfold state_after in *.
  destruct (crosses nd); cbn [st_i st_crosses] in *.
  - rewrite Hp. rewrite <- !app_assoc. reflexivity.
  - rewrite Z.add_0_r in *. rewrite Hp. rewrite <- !app_assoc. reflexivity.
Qed.

Lemma update_frames_inv (L t : R) (xlim ylim : R * R) (w : World) :
  t <> 0 -> frames_inv L t w -> frames_inv L t (snd (update L t xlim ylim w)).
Proof.
  intros Ht (Hi & Hc & Htx & Hnum).
  destruct (update_frame L t xlim ylim w Ht) as (nd & p & _ & Hp & E).
  rewrite E. unfold frames_inv. cbn [snd w_state w_log].
  rewrite needles_of_app, texts_of_app, needles_of_frame, texts_of_frame.
  rewrite length_app, hits_snoc. cbn [List.length].
  pose proof (hits_le_length (needles_of (w_log w))) as Hle.
  assert (Hi' : st_i (state_after (w_state w) nd)
                = Z.of_nat (List.length (needles_of (w_log w)) + 1)).
  { unfold state_after. cbn. rewrite Hi. lia. }
  assert (Hc' : st_crosses (state_after (w_state w) nd)
                = Z.of_nat (hits (needles_of (w_log w))
                            + (if crosses nd then 1 else 0))).
  { unfold state_after. cbn. rewrite Hc. destruct (crosses nd); lia. }
  split; [exact Hi' |]. split; [exact Hc' |]. split.
  - apply Forall_app. split; [exact Htx |].
    constructor; [| constructor].
    unfold text_ok. split; [lia |]. split.
    + rewrite Hi', Hc'. destruct (crosses nd); lia.
    + split; [exact Hp |]. eapply estimate_pi_inf_iff. exact Hp.
  - rewrite map_app, Hnum. cbn [map fst snd].
    rewrite Nat.add_1_r, seq_S, map_app. cbn [map].
    rewrite Hi'. do 3 f_equal. lia.
Qed.

Lemma init_frames_inv (L t : R) (w : World) :
  frames_inv L t w -> frames_inv L t (init w).
Proof.
  unfold frames_inv, init. cbn [w_state w_log].
  rewrite needles_of_app, texts_of_app. cbn [needles_of texts_of].
  rewrite !app_nil_r. intro H. exact H.
Qed.

Lemma play_frames_inv (calls : list Callback) (L t : R) (xlim ylim : R * R)
      (w : World) :
  t <> 0 -> frames_inv L t w ->
  frames_inv L t (snd (play calls L t xlim ylim w)).
Proof.
  intro Ht. revert w. induction calls as [| c calls IH]; intros w Hw; cbn.
  - exact Hw.
  - destruct c.
    + apply IH. apply init_frames_inv. exact Hw.
    + pose proof (update_frames_inv L t xlim ylim w Ht Hw) as Hu.
      destruct (update L t xlim ylim w) as [[u | e] w']; cbn [snd] in *.
      * apply IH. exact Hu.
      * exact Hu.
Qed.

Lemma make_base_figure_spacing (xlim ylim : R * R) (t : R) (lines : list R) :
  make_base_figure xlim ylim t = Ok lines -> t <> 0.
Proof.
  intros H Ht. subst t. unfold make_base_figure in H.
  rewrite py_div_zero in H. discriminate H.
Qed.

(** Every run that got as far as its animation keeps [frames_inv]. *)
Lemma run_frames_inv (lib : Animation) (N speed_ms : Z) (L t : R)
      (d : nat -> R) (w : World) :
  run_world (run_simulation lib N speed_ms L t d) = Some w ->
  frames_inv L t w.
Proof.
  intro Hw.
  destruct (run_simulation_cases lib N speed_ms L t d)
    as [[e E] | (lines & Hfig & _ & H)].
  - rewrite E in Hw. discriminate Hw.
  - cbv zeta in H. destruct H as [_ E]. rewrite E in Hw.
    cbn [run_world] in Hw. injection Hw as Hw. subst w.
    apply play_frames_inv.
    + eapply make_base_figure_spacing. exact Hfig.
    + unfold frames_inv. cbn. repeat split. constructor.
Qed.

(** Whatever holds of every needle the sampler can return from the draws
    of a run holds of every needle the run drew. *)
Lemma play_needles (P : Needle -> Prop) (L t : R) (xlim ylim : R * R)
      (d : nat -> R) :
  t <> 0 ->
  (forall g nd,
      draws g = d -> fst (drop_one_needle L t xlim ylim g) = Ok nd -> P nd) ->
  forall (calls : list Callback) (w : World),
    draws (w_rng w) = d ->
    Forall P (needles_of (w_log w)) ->
    Forall P (needles_of (w_log (snd (play calls L t xlim ylim w)))).
Proof.
  intros Ht HP calls.
  induction calls as [| c calls IH]; intros w Hd Hw; cbn.
  - exact Hw.
  - destruct c.
    + apply IH.
      * exact Hd.
      * unfold init. cbn [w_log]. rewrite needles_of_app. cbn.
        rewrite app_nil_r. exact Hw.
    + destruct (update_frame L t xlim ylim w Ht) as (nd & p & Hnd & _ & E).
      rewrite E. apply IH.
      * cbn. exact Hd.
      * cbn [w_log]. rewrite needles_of_app, needles_of_frame.
        apply Forall_app. split; [exact Hw |].
        constructor; [| constructor].
        apply (HP (w_rng w)); assumption.
Qed.

Lemma run_needles (P : Needle -> Prop) (lib : Animation) (N speed_ms : Z)
      (L t : R) (d : nat -> R) :
  (t <> 0 ->
   forall g nd,
     draws g = d ->
     fst (drop_one_needle L t (-3, 3) (-3, 3) g) = Ok nd -> P nd) ->
  Forall P (needles_of (run_log (run_simulation lib N speed_ms L t d))).
Proof.
  intro HP.
  destruct (run_simulation_cases lib N speed_ms L t d)
    as [[e E] | (lines & Hfig & _ & H)].
  - rewrite E. constructor.
  - cbv zeta in H. destruct H as [_ E]. rewrite E.
    unfold run_log. cbn [run_world].
    pose proof (make_base_figure_spacing _ _ _ _ Hfig) as Ht.
    apply (play_needles P L t (-3, 3) (-3, 3) d Ht (HP Ht)).
    + reflexivity.
    + cbn. constructor.
Qed.

Lemma sampled_inside (L t xmin xmax ymin ymax : R) (g : Rng) (nd : Needle) :
  0 < L <= t -> xmax - xmin >= L -> ymax - ymin >= t ->
  unit_draws (draws g) ->
  fst (drop_one_needle L t (xmin, xmax) (ymin, ymax) g) = Ok nd ->
  inside L (xmin, xmax) (ymin, ymax) nd.
Proof.
  intros [HL HLt] Hw Hh Hd E.
  destruct (drop_one_needle_ok L t (xmin, xmax) (ymin, ymax) g)
    as (nd' & E' & _ & Hx & Hy & _); [lra |].
  rewrite E' in E. cbn [fst] in E. injection E as E. subst nd'.
  cbn [fst snd] in Hx, Hy.
  assert (Bx : xmin + L / 2 <= x nd <= xmax - L / 2).
  { rewrite Hx. apply uniform_between; [lra | apply Hd]. }
  assert (By : ymin + t / 2 <= y nd <= ymax - t / 2).
  { rewrite Hy. apply uniform_between; [lra | apply Hd]. }
  pose proof (COS_bound (theta nd)) as [Hc1 Hc2].
  pose proof (SIN_bound (theta nd)) as [Hs1 Hs2].
  assert (Hcx : - (L / 2) <= (L / 2) * cos (theta nd) <= L / 2)
    by (split; nra).
  assert (Hsy : - (t / 2) <= (L / 2) * sin (theta nd) <= t / 2)
    by (split; nra).
  unfold inside. cbn [fst snd]. repeat split; lra.
Qed.

Lemma sampled_coloured_right (L t : R) (xlim ylim : R * R) (g : Rng)
      (nd : Needle) :
  0 < t -> 0 <= L -> unit_draws (draws g) ->
  fst (drop_one_needle L t xlim ylim g) = Ok nd ->
  coloured_right L t nd.
Proof.
  intros Ht HL Hd E.
  destruct (drop_one_needle_ok L t xlim ylim g)
    as (nd' & E' & Hc & _ & _ & Hth); [lra |].
  rewrite E' in E. cbn [fst] in E. injection E as E. subst nd'.
  destruct (Hd (S (S (pos g)))) as [Hlo Hhi].
  pose proof PI_RGT_0 as Hpi.
  assert (Hsin : 0 <= sin (theta nd)).
  { apply sin_ge_0; rewrite Hth; nra. }
  assert (Hdy : 0 <= L / 2 * sin (theta nd)) by (apply Rmult_le_pos; lra).
  destruct (crossing_meets_line L t (y nd) (theta nd) Ht) as (b & Hb & Hiff).
  rewrite Hc in Hb. injection Hb as Hb. subst b.
  unfold coloured_right. cbv zeta.
  rewrite Rmin_left, Rmax_right by lra. exact Hiff.
Qed.

(** X12. In every run, whatever the plotting library does, the counters of
    the final state are the number of needles drawn and the number of
    needles drawn in red. *)
Theorem counters_count_drawn_needles
  (lib : Animation) (N speed_ms : Z) (L t : R) (d : nat -> R) :
  let r := run_simulation lib N speed_ms L t d in
  let nds := needles_of (run_log r) in
  run_state r
  = option_map
      (fun _ => mkState (Z.of_nat (List.length nds)) (Z.of_nat (hits nds)))
      (run_world r).
Proof.
  cbv zeta. unfold run_state, run_log.
  destruct (run_world (run_simulation lib N speed_ms L t d)) as [w |] eqn:Hw;
    [| reflexivity].
  destruct (run_frames_inv _ _ _ _ _ _ _ Hw) as (Hi & Hc & _).
  cbn. f_equal. destruct (w_state w) as [i c]. cbn in *.
  rewrite Hi, Hc. reflexivity.
Qed.

(** X13. In every run, whatever the plotting library does, each overlay
    shows at least one needle, crossings between 0 and the needle count,
    and the value the estimator returns for these two counts, which is
    infinite exactly while no crossing has been counted; the needle counts
    shown are 1, 2, 3, ... in this order, one overlay per needle drawn. *)
Theorem overlays_follow_the_counters
  (lib : Animation) (N speed_ms : Z) (L t : R) (d : nat -> R) :
  let log := run_log (run_simulation lib N speed_ms L t d) in
  Forall (text_ok L t) (texts_of log)
  /\ map (fun x => snd (fst x)) (texts_of log)
     = map Z.of_nat (seq 1 (List.length (needles_of log))).
Proof.
  cbv zeta. unfold run_log.
  destruct (run_world (run_simulation lib N speed_ms L t d)) as [w |] eqn:Hw.
  - destruct (run_frames_inv _ _ _ _ _ _ _ Hw) as (_ & _ & Htx & Hnum).
    split; assumption.
  - split; [constructor | reflexivity].
Qed.

(** X14. In every run with a positive spacing, a needle length that is not
    negative and draws in [0, 1), each needle is drawn in red exactly when
    a grid line lies between the heights of the two endpoints of its
    plotted segment; touching counts. *)
Theorem drawn_needles_coloured_right
  (lib : Animation) (N speed_ms : Z) (L t : R) (d : nat -> R) :
  0 < t -> 0 <= L -> unit_draws d ->
  Forall (coloured_right L t)
         (needles_of (run_log (run_simulation lib N speed_ms L t d))).
Proof.
  intros Ht HL Hd. apply run_needles. intros _ g nd Hg E.
  apply (sampled_coloured_right L t (-3, 3) (-3, 3) g nd); try assumption.
  rewrite Hg. exact Hd.
Qed.

Lemma drawn_needles_coloured_right_witness :
  Forall (coloured_right 1 1)
         (needles_of
            (run_log (run_simulation plain_animation 3 10 1 1 d_half))).
Proof.
  apply (drawn_needles_coloured_right plain_animation 3 10 1 1 d_half).
  - lra.
  - lra.
  - exact d_half_unit.
Defined.

(** X15. In every run with 0 < L <= t <= 6 and draws in [0, 1), each needle
    drawn lies with both endpoints inside the window [-3, 3] x [-3, 3]. *)
Theorem drawn_needles_inside_window
  (lib : Animation) (N speed_ms : Z) (L t : R) (d : nat -> R) :
  0 < L <= t -> t <= 6 -> unit_draws d ->
  Forall (inside L (-3, 3) (-3, 3))
         (needles_of (run_log (run_simulation lib N speed_ms L t d))).
Proof.
  intros HL Ht Hd. apply run_needles. intros _ g nd Hg E.
  apply (sampled_inside L t (-3) 3 (-3) 3 g nd); try assumption.
  - lra.
  - lra.
  - rewrite Hg. exact Hd.
Qed.

Lemma drawn_needles_inside_window_witness :
  Forall (inside 1 (-3, 3) (-3, 3))
         (needles_of
            (run_log (run_simulation plain_animation 3 10 1 1 d_half))).
Proof.
  apply (drawn_needles_inside_window plain_animation 3 10 1 1 d_half).
  - lra.
  - lra.
  - exact d_half_unit.
Defined.

(** * Whole runs *)

(** X16. With L <= t and a spacing other than zero, none of the program's
    callbacks raises: whatever calls of [init] and [update] the plotting
    library makes, the run ends as the library's playback ends, and every
    call of [update] counts one trial, draws one needle, writes one overlay
    and takes three values from the generator. *)
Theorem run_simulation_follows_schedule
  (lib : Animation) (N speed_ms : Z) (L t : R) (d : nat -> R) :
  L <= t -> t <> 0 ->
  let pb := lib N (Z.max 1 speed_ms) in
  exists w,
    run_simulation lib N speed_ms L t d = mkRun (pb_end pb) (Some w)
    /\ st_i (w_state w) = Z.of_nat (updates_in (pb_calls pb))
    /\ pos (w_rng w) = (3 * updates_in (pb_calls pb))%nat
    /\ List.length (needles_of (w_log w)) = updates_in (pb_calls pb)
    /\ List.length (texts_of (w_log w)) = updates_in (pb_calls pb).
Proof.
  intros HLt Ht pb. subst pb.
  destruct (run_simulation_started lib N speed_ms L t d HLt Ht)
    as (w & E & Hi & Hp & _).
  exists w. split; [exact E |]. split; [exact Hi |]. split; [exact Hp |].
  assert (Hw : run_world (run_simulation lib N speed_ms L t d) = Some w)
    by (rewrite E; reflexivity).
  destruct (run_frames_inv _ _ _ _ _ _ _ Hw) as (Hi' & _ & _ & Hnum).
  assert (Hlen : List.length (needles_of (w_log w))
                 = updates_in (pb_calls (lib N (Z.max 1 speed_ms))))
    by (rewrite Hi in Hi'; lia).
  split; [exact Hlen |].
  apply (f_equal (@List.length Z)) in Hnum.
  rewrite !length_map, length_seq in Hnum. rewrite Hnum. exact Hlen.
Qed.

Lemma run_simulation_follows_schedule_witness :
  exists w,
    run_simulation plain_animation 3 10 1 1 d_half = mkRun (Ok tt) (Some w)
    /\ st_i (w_state w) = 3%Z
    /\ pos (w_rng w) = 9%nat
    /\ List.length (needles_of (w_log w)) = 3%nat
    /\ List.length (texts_of (w_log w)) = 3%nat.
Proof.
  apply (run_simulation_follows_schedule plain_animation 3 10 1 1 d_half);
    lra.
Defined.

(** X17. A zero spacing with L <= 0 passes the L > t test and fails while the
    figure is built: the run ends with ZeroDivisionError before the state
    exists, and no frame is played. *)
Theorem run_simulation_zero_spacing
  (lib : Animation) (N speed_ms : Z) (L : R) (d : nat -> R) :
  L <= 0 ->
  run_simulation lib N speed_ms L 0 d = mkRun (Raise ZeroDivisionError) None.
Proof.
  intro HL. unfold run_simulation.
  apply Rgtb_false_iff in HL. rewrite HL.
  unfold make_base_figure. rewrite py_div_zero. reflexivity.
Qed.

Lemma run_simulation_zero_spacing_witness :
  run_simulation plain_animation 10 15 0 0 d_half
  = mkRun (Raise ZeroDivisionError) None.
Proof.
  apply (run_simulation_zero_spacing plain_animation 10 15 0 d_half). lra.
Defined.

(** X18. Whatever is typed at the prompt and whatever the builtins and the
    plotting library do, none of the program's own code raises: the output
    is the banner, followed by the diagnostic exactly when reading the
    count raised; one animation is created, with interval 10 and with
    frames the count that was read, or 300; every call of [update] the
    library makes counts one trial; and the program ends as the library's
    playback ends. *)
Theorem main_reaches_animation
  (py : Builtins) (lib : Animation) (stdin : option string) (d : nat -> R) :
  let n := match read_count py stdin with
           | Ok n => n
           | Raise _ => 300%Z
           end in
  exists w,
    snd (main py lib stdin d) = mkRun (pb_end (lib n 10%Z)) (Some w)
    /\ fst (main py lib stdin d)
       = match read_count py stdin with
         | Ok _ => banner
         | Raise _ => banner ++ [fallback_message]
         end
    /\ animations_of (w_log w) = [(n, 10%Z)]
    /\ st_i (w_state w) = Z.of_nat (updates_in (pb_calls (lib n 10%Z))).
Proof.
  cbv zeta. unfold main. destruct (read_count py stdin) as [n | e].
  - destruct (run_simulation_started lib n 10 1 1 d)
      as (w & E & Hi & _ & Ha); [lra | lra |].
    change (Z.max 1 10) with 10%Z in *.
    exists w. cbn [fst snd]. repeat split; assumption.
  - destruct (run_simulation_started lib 300 10 1 1 d)
      as (w & E & Hi & _ & Ha); [lra | lra |].
    change (Z.max 1 10) with 10%Z in *.
    exists w. cbn [fst snd]. repeat split; assumption.
Qed.
